(** * Authentication and request-integrity core of the esports platform

    A shallow embedding of the auth module (session tokens, request
    authentication, CSRF tokens), of [lib/csrf.ts] (the mutation guard), of
    the middleware (the access gate) and of [lib/rate-limit.ts] (the
    fixed-window rate limiter), followed by the properties proved about them.

    Conventions of the embedding.
    - A JavaScript [number] that holds an integer (user ids, millisecond
      timestamps, request counts) is a [Z]; [NaN] is kept apart in
      [Js.number]. The two agree on the safe integers ([Js.safe_integer]),
      where ids and clocks live: beyond 2^53 JavaScript rounds what it
      computes and what [parseInt] reads, the model does not. A statement
      that needs the text of a number to read back as the number bounds the
      number by [Js.safe_integer].
    - Text is a [string] of bytes, its UTF-8 encoding, so that
      [Buffer.from(text)] is the text itself; [undefined] and [null] are
      [None]. Bytes that are not UTF-8 stay as they are, where JavaScript
      puts U+FFFD; a statement that depends on them asks for ASCII text.
    - [Date.now()] is an explicit argument [now].
    - A call that may throw returns a [completion]; [try]/[catch] is
      [try_catch].
    - The module-level [rateLimitStore] is threaded through
      [checkRateLimit] as an argument and a result.
    - The keyed hash ([crypto.createHmac]) and the [jsonwebtoken] package are
      parameters of the model, gathered in [Auth.Env]. *)

From Stdlib Require Import ZArith NArith Lia List Ascii String Bool.
From stdpp Require Import gmap strings.

Open Scope string_scope.

Ltac Zify.zify_post_hook ::= Z.div_mod_to_equations.

(** ** 1. Completions: normal return or thrown exception *)

Inductive js_error : Type :=
  | TypeError (msg : string)
  | RangeError (msg : string)
  | JsonWebTokenError (msg : string)
  | TokenExpiredError (msg : string).

Inductive completion (A : Type) : Type :=
  | Normal (a : A)
  | Throw (e : js_error).
Arguments Normal {A} a.
Arguments Throw {A} e.

Definition bind {A B} (c : completion A) (k : A -> completion B) : completion B :=
  match c with
  | Normal a => k a
  | Throw e => Throw e
  end.

(** [try { c } catch { h }] *)
Definition try_catch {A} (c : completion A) (h : js_error -> completion A) : completion A :=
  match c with
  | Normal a => Normal a
  | Throw e => h e
  end.

Notation "'let!' x ':=' c1 'in' c2" := (bind c1 (fun x => c2))
  (at level 10, x name, c1 at level 100, c2 at level 200).

(** ** 2. The JavaScript runtime functions the sources call *)

Module Js.

(** *** Numbers *)

Inductive number : Type :=
  | Num (z : Z)
  | NaN.

(** [Number.isSafeInteger(n)]: the integers that JavaScript numbers hold
    without rounding, from -(2^53 - 1) to 2^53 - 1 *)
Definition safe_integer (n : Z) : Prop := (- (2 ^ 53 - 1) <= n <= 2 ^ 53 - 1)%Z.

(** [a !== b] on numbers: [NaN] differs from everything, itself included. *)
Definition strict_neq (a b : number) : bool :=
  match a, b with
  | Num x, Num y => negb (x =? y)%Z
  | _, _ => true
  end.

Definition sub (a b : number) : number :=
  match a, b with
  | Num x, Num y => Num (x - y)
  | _, _ => NaN
  end.

(** [a > b]: false as soon as one side is [NaN]. *)
Definition gt (a b : number) : bool :=
  match a, b with
  | Num x, Num y => (x >? y)%Z
  | _, _ => false
  end.

(** [Math.ceil(a / b)] for integers [a] and a positive integer [b]. *)
Definition ceil_div (a b : Z) : Z := (- ((- a) / b))%Z.

(** *** Truthiness and the [||] operator on [string | undefined] *)

Definition truthy (v : option string) : bool :=
  match v with
  | Some s => negb (s =? "")
  | None => false
  end.

Definition or_else (a b : option string) : option string :=
  if truthy a then a else b.

(** [`${v}`] for [v : string | undefined] *)
Definition ToString (v : option string) : string :=
  match v with
  | Some s => s
  | None => "undefined"
  end.

(** *** Strings *)

Definition code (c : ascii) : N := N_of_ascii c.

Fixpoint drop (n : nat) (s : string) : string :=
  match n, s with
  | O, _ => s
  | S n', String _ r => drop n' r
  | S _, EmptyString => EmptyString
  end.

(** [s.startsWith(p)] *)
Definition startsWith (s p : string) : bool := String.prefix p s.

(** [s.split(sep)] for a separator of one character *)
Fixpoint split (sep : ascii) (s : string) : list string :=
  match s with
  | EmptyString => [EmptyString]
  | String c r =>
      if Ascii.eqb c sep then EmptyString :: split sep r
      else match split sep r with
           | f :: fs => String c f :: fs
           | [] => [String c EmptyString]
           end
  end.

(** [s.replace(pat, rep)] with a string pattern: the first occurrence only *)
Fixpoint replace (pat rep s : string) : string :=
  if String.prefix pat s then rep +:+ drop (String.length pat) s
  else match s with
       | EmptyString => EmptyString
       | String c r => String c (replace pat rep r)
       end.

Definition upper_char (c : ascii) : ascii :=
  if ((97 <=? code c) && (code c <=? 122))%N then ascii_of_N (code c - 32) else c.

(** [s.toUpperCase()] on ASCII text, such as the method of a request; of
    the characters outside ASCII, which the model leaves as they are,
    JavaScript maps some to ASCII letters (U+017F to [S]). *)
Fixpoint toUpperCase (s : string) : string :=
  match s with
  | EmptyString => EmptyString
  | String c r => String (upper_char c) (toUpperCase r)
  end.

(** [list.includes(x)] *)
Definition includes (l : list string) (x : string) : bool :=
  existsb (String.eqb x) l.

(** *** [parseInt] *)

Definition is_ascii_ws (c : ascii) : bool :=
  ((9 <=? code c) && (code c <=? 13) || (code c =? 32))%N.

(** U+00A0, as the two bytes of its UTF-8 form *)
Definition is_ws2 (c1 c2 : ascii) : bool :=
  ((code c1 =? 194) && (code c2 =? 160))%N.

(** U+1680, U+2000..U+200A, U+2028, U+2029, U+202F, U+205F, U+3000 and
    U+FEFF, as the three bytes of their UTF-8 forms *)
Definition is_ws3 (c1 c2 c3 : ascii) : bool :=
  (((code c1 =? 225) && (code c2 =? 154) && (code c3 =? 128))
   || ((code c1 =? 226) && (code c2 =? 128)
       && (((128 <=? code c3) && (code c3 <=? 138))
           || (code c3 =? 168) || (code c3 =? 169) || (code c3 =? 175)))
   || ((code c1 =? 226) && (code c2 =? 129) && (code c3 =? 159))
   || ((code c1 =? 227) && (code c2 =? 128) && (code c3 =? 128))
   || ((code c1 =? 239) && (code c2 =? 187) && (code c3 =? 191)))%N.

(** Leading white space is skipped. *)
Fixpoint trimStart (s : string) : string :=
  match s with
  | String c1 r1 =>
      if is_ascii_ws c1 then trimStart r1
      else match r1 with
           | String c2 r2 =>
               if is_ws2 c1 c2 then trimStart r2
               else match r2 with
                    | String c3 r3 => if is_ws3 c1 c2 c3 then trimStart r3 else s
                    | EmptyString => s
                    end
           | EmptyString => s
           end
  | EmptyString => s
  end.

(** The value of a digit or letter in a radix up to 36 *)
Definition digit_value (c : ascii) : option N :=
  let n := code c in
  if ((48 <=? n) && (n <=? 57))%N then Some (n - 48)%N
  else if ((97 <=? n) && (n <=? 122))%N then Some (n - 87)%N
  else if ((65 <=? n) && (n <=? 90))%N then Some (n - 55)%N
  else None.

Definition digit_in (radix : N) (c : ascii) : option N :=
  match digit_value c with
  | Some d => if (d <? radix)%N then Some d else None
  | None => None
  end.

(** The longest prefix of digits, read in the radix *)
Fixpoint read_digits (radix : N) (s : string) (acc : N) : N :=
  match s with
  | String c r =>
      match digit_in radix c with
      | Some d => read_digits radix r (acc * radix + d)
      | None => acc
      end
  | EmptyString => acc
  end.

Definition has_digit (radix : N) (s : string) : bool :=
  match s with
  | String c _ => match digit_in radix c with Some _ => true | None => false end
  | EmptyString => false
  end.

(** [parseInt(s)] with no radix argument: white space, a sign, an optional
    [0x] prefix that switches to radix 16, then the digits; [NaN] when there
    is no digit. The result is the integer that the digits write; JavaScript
    rounds it to the nearest number it has, which changes nothing up to
    2^53. *)
Definition parseInt (s : string) : number :=
  let s1 := trimStart s in
  let '(sign, s2) :=
    match s1 with
    | String c r =>
        if (code c =? 45)%N then ((-1)%Z, r)
        else if (code c =? 43)%N then (1%Z, r)
        else (1%Z, s1)
    | EmptyString => (1%Z, s1)
    end in
  let '(radix, s3) :=
    if String.prefix "0x" s2 || String.prefix "0X" s2 then (16%N, drop 2 s2)
    else (10%N, s2) in
  if has_digit radix s3 then Num (sign * Z.of_N (read_digits radix s3 0))
  else NaN.

(** *** Number to string, for integers *)

Definition digit_char (d : N) : ascii := ascii_of_N (48 + d).

Fixpoint digits_of (fuel : nat) (n : N) (acc : string) : string :=
  match fuel with
  | O => acc
  | S f =>
      let acc' := String (digit_char (n mod 10)) acc in
      if (n / 10 =? 0)%N then acc' else digits_of f (n / 10) acc'
  end.

Definition N_toString (n : N) : string := digits_of (S (N.to_nat (N.log2 n))) n "".

(** The sign and the decimal digits of an integer *)
Definition decimal (z : Z) : string :=
  match z with
  | Z0 => "0"
  | Zpos p => N_toString (Npos p)
  | Zneg p => String "-" (N_toString (Npos p))
  end.

(** A run of digits without the zeros that end it *)
Fixpoint strip_zeros (s : string) : string :=
  match s with
  | EmptyString => EmptyString
  | String c r =>
      let r' := strip_zeros r in
      if (code c =? 48)%N && String.eqb r' "" then EmptyString else String c r'
  end.

(** Exponent notation, from the digits of a positive integer: the first
    digit, the other digits behind a point unless they are all zeros, and
    the exponent, which is the number of digits after the first *)
Definition exponent_form (digits : string) : string :=
  match digits with
  | EmptyString => EmptyString
  | String d rest =>
      let fraction := strip_zeros rest in
      String d ((if String.eqb fraction "" then "" else String "." fraction)
                +:+ "e+" +:+ N_toString (N.of_nat (String.length rest)))
  end.

(** [`${n}`] for an integer [n]: the digits below 10^21, exponent notation
    from 10^21 on ([1e+21]). This is what JavaScript writes for a safe
    integer and, from 10^21 on, for a number of at most 15 significant
    digits; for other numbers beyond 2^53 JavaScript writes the shortest
    digits that round to the number, the model all digits. Ids and clocks are
    not negative: a negative number is written with its digits throughout. *)
Definition Number_toString (z : Z) : string :=
  if (z <? 10 ^ 21)%Z then decimal z else exponent_form (decimal z).

(** *** Buffers: base64, hex, and constant-time comparison *)

Definition b64_alphabet : string :=
  "ABCDEFGHIJKLMNOPQRSTUVWXYZabcdefghijklmnopqrstuvwxyz0123456789+/".

Definition b64_char (n : N) : ascii :=
  match String.get (N.to_nat n) b64_alphabet with
  | Some c => c
  | None => "="%char
  end.

(** [Buffer.from(s).toString("base64")] *)
Fixpoint base64_encode (s : string) : string :=
  match s with
  | EmptyString => EmptyString
  | String a EmptyString =>
      let x := code a in
      String (b64_char (x / 4)) (String (b64_char (x mod 4 * 16)) "==")
  | String a (String b EmptyString) =>
      let x := code a in
      let y := code b in
      String (b64_char (x / 4))
        (String (b64_char (x mod 4 * 16 + y / 16))
           (String (b64_char (y mod 16 * 4)) "="))
  | String a (String b (String c r)) =>
      let x := code a in
      let y := code b in
      let z := code c in
      String (b64_char (x / 4))
        (String (b64_char (x mod 4 * 16 + y / 16))
           (String (b64_char (y mod 16 * 4 + z / 64))
              (String (b64_char (z mod 64)) (base64_encode r))))
  end.

(** The value of a base64 character; the URL-safe [-] and [_] are read too. *)
Definition unbase64 (c : ascii) : option N :=
  let n := code c in
  if ((65 <=? n) && (n <=? 90))%N then Some (n - 65)%N
  else if ((97 <=? n) && (n <=? 122))%N then Some (n - 71)%N
  else if ((48 <=? n) && (n <=? 57))%N then Some (n + 4)%N
  else if ((n =? 43) || (n =? 45))%N then Some 62%N
  else if ((n =? 47) || (n =? 95))%N then Some 63%N
  else None.

(** The decoder is lenient: a character outside the alphabet is skipped, and
    decoding stops at the first [=]. *)
Fixpoint b64_sextets (s : string) : list N :=
  match s with
  | EmptyString => []
  | String c r =>
      match unbase64 c with
      | Some v => v :: b64_sextets r
      | None => if (code c =? 61)%N then [] else b64_sextets r
      end
  end.

Fixpoint b64_bytes (l : list N) : string :=
  match l with
  | s0 :: s1 :: s2 :: s3 :: r =>
      String (ascii_of_N (s0 * 4 + s1 / 16))
        (String (ascii_of_N (s1 mod 16 * 16 + s2 / 4))
           (String (ascii_of_N (s2 mod 4 * 64 + s3)) (b64_bytes r)))
  | [s0; s1; s2] =>
      String (ascii_of_N (s0 * 4 + s1 / 16))
        (String (ascii_of_N (s1 mod 16 * 16 + s2 / 4)) EmptyString)
  | [s0; s1] => String (ascii_of_N (s0 * 4 + s1 / 16)) EmptyString
  | _ => EmptyString
  end.

(** [Buffer.from(s, "base64").toString("utf-8")]. The decoded bytes are
    the text; where they are not UTF-8, JavaScript puts U+FFFD for the
    offending bytes. *)
Definition base64_decode (s : string) : string := b64_bytes (b64_sextets s).

Definition hex_char (d : N) : ascii :=
  if (d <? 10)%N then ascii_of_N (48 + d) else ascii_of_N (87 + d).

(** [digest("hex")]: two lowercase hexadecimal digits per byte *)
Fixpoint hex_encode (s : string) : string :=
  match s with
  | EmptyString => EmptyString
  | String c r =>
      String (hex_char (code c / 16)) (String (hex_char (code c mod 16)) (hex_encode r))
  end.

(** [Buffer.from(v)] for [v : string | undefined]: a [TypeError] on
    [undefined]. *)
Definition Buffer_from (v : option string) : completion string :=
  match v with
  | Some s => Normal s
  | None => Throw (TypeError "The first argument must be of type string")
  end.

(** [crypto.timingSafeEqual(a, b)]: a [RangeError] when the byte lengths
    differ, else whether the bytes agree. *)
Definition timingSafeEqual (a b : string) : completion bool :=
  if (String.length a =? String.length b)%nat then Normal (String.eqb a b)
  else Throw (RangeError "Input buffers must have the same byte length").

(** *** [trim], and the run of characters up to a stop character *)

Fixpoint rev_onto (s acc : string) : string :=
  match s with
  | EmptyString => acc
  | String c r => rev_onto r (String c acc)
  end.

Definition reverse (s : string) : string := rev_onto s EmptyString.

(** [trimStart] on the reversed text: a white-space character of several
    bytes shows with its bytes in reverse order. *)
Fixpoint trimStart_rev (s : string) : string :=
  match s with
  | String c1 r1 =>
      if is_ascii_ws c1 then trimStart_rev r1
      else match r1 with
           | String c2 r2 =>
               if is_ws2 c2 c1 then trimStart_rev r2
               else match r2 with
                    | String c3 r3 => if is_ws3 c3 c2 c1 then trimStart_rev r3 else s
                    | EmptyString => s
                    end
           | EmptyString => s
           end
  | EmptyString => s
  end.

Definition trimEnd (s : string) : string := reverse (trimStart_rev (reverse s)).

(** [s.trim()] *)
Definition trim (s : string) : string := trimEnd (trimStart s).

(** The longest prefix that holds no [stop]: what [[^;]*] matches at the
    start of a text, for [stop = ";"]. *)
Fixpoint take_until (stop : ascii) (s : string) : string :=
  match s with
  | EmptyString => EmptyString
  | String c r => if Ascii.eqb c stop then EmptyString else String c (take_until stop r)
  end.

End Js.

(** ** 3. Requests *)

(** The part of a [NextRequest] the sources read. Header names are stored in
    lower case, as [Headers.get] looks them up. *)
Record Request : Type := {
  method : string;
  pathname : string;
  cookies : gmap string string;
  headers : gmap string string
}.

(** [request.cookies.get(name)?.value] *)
Definition cookies_get (request : Request) (name : string) : option string :=
  cookies request !! name.

(** [request.headers.get(name)] *)
Definition headers_get (request : Request) (name : string) : option string :=
  headers request !! name.

(** ** 4. [lib/auth.ts] *)

Module Auth.

Record TokenPayload : Type := {
  id : Z;
  email : string;
  username : string;
  is_host : bool
}.

(** What [jwt.verify] hands back: the signed claims with the issue and
    expiry times (in seconds) the package adds. *)
Record JwtPayload : Type := {
  claims : TokenPayload;
  iat : Z;
  exp : Z
}.

(** The argument of [generateToken]; [is_host] is optional. *)
Record User : Type := {
  user_id : Z;
  user_email : string;
  user_username : string;
  user_is_host : option bool
}.

(** The secrets read from the environment and the two packages the module
    calls: [hmac_sha256 key data] is
    [crypto.createHmac("sha256", key).update(data).digest()],
    [jwt_sign payload secret expiresIn now] is [jwt.sign] run at clock [now]
    with [expiresIn] in seconds, and [jwt_verify token secret now] is
    [jwt.verify] run at clock [now]. *)
Record Env : Type := {
  JWT_SECRET : string;
  CSRF_SECRET : string;
  hmac_sha256 : string -> string -> string;
  jwt_sign : TokenPayload -> string -> Z -> Z -> string;
  jwt_verify : string -> string -> Z -> completion JwtPayload
}.

(** What the model asks of [jsonwebtoken]: a token signed at [now] carries
    [iat = floor(now / 1000)] and [exp = iat + expiresIn]; verified with the
    signing secret it yields the signed claims while the clock, in seconds, is
    below [exp], and throws from [exp] on. *)
Definition jwt_contract (E : Env) : Prop :=
  forall (p : TokenPayload) (secret : string) (expiresIn now now' : Z),
    let t := jwt_sign E p secret expiresIn now in
    let issued := (now / 1000)%Z in
    ((now' / 1000 < issued + expiresIn)%Z ->
       jwt_verify E t secret now'
       = Normal {| claims := p; iat := issued; exp := (issued + expiresIn)%Z |})
    /\ ((issued + expiresIn <= now' / 1000)%Z ->
       exists e, jwt_verify E t secret now' = Throw e).

Section WithEnv.

Context (E : Env).

(** [expiresIn: "7d"], in seconds *)
Definition expiresIn_7d : Z := 7 * 24 * 60 * 60.

Definition generateToken (now : Z) (user : User) : string :=
  jwt_sign E
    {| id := user_id user;
       email := user_email user;
       username := user_username user;
       is_host := match user_is_host user with Some b => b || false | None => false end |}
    (JWT_SECRET E) expiresIn_7d now.

Definition verifyToken (now : Z) (token : string) : completion (option JwtPayload) :=
  try_catch
    (let! decoded := jwt_verify E token (JWT_SECRET E) now in
     Normal (Some decoded))
    (fun _ => Normal None).

Definition getUserFromRequest (now : Z) (request : Request)
  : completion (option JwtPayload) :=
  let cookieToken := cookies_get request "auth_token" in
  if Js.truthy cookieToken then verifyToken now (Js.ToString cookieToken)
  else
    match headers_get request "authorization" with
    | Some authHeader =>
        if Js.startsWith authHeader "Bearer " then
          let token := nth 1 (Js.split " " authHeader) "" in
          verifyToken now token
        else Normal None
    | None => Normal None
    end.

Definition generateCsrfToken (now : Z) (userId : Z) : string :=
  let timestamp := now in
  let data := Js.Number_toString userId +:+ ":" +:+ Js.Number_toString timestamp in
  let signature := Js.hex_encode (hmac_sha256 E (CSRF_SECRET E) data) in
  Js.base64_encode (data +:+ ":" +:+ signature).

(** The body of the [try] block of [verifyCsrfToken] *)
Definition verifyCsrfToken_try (now : Z) (token : string) (userId : Z)
  : completion bool :=
  let decoded := Js.base64_decode token in
  let parts := Js.split ":" decoded in
  let tokenUserId := nth_error parts 0 in
  let timestamp := nth_error parts 1 in
  let signature := nth_error parts 2 in
  if Js.strict_neq (Js.parseInt (Js.ToString tokenUserId)) (Js.Num userId)
  then Normal false
  else
    let tokenAge := Js.sub (Js.Num now) (Js.parseInt (Js.ToString timestamp)) in
    if Js.gt tokenAge (Js.Num (24 * 60 * 60 * 1000)) then Normal false
    else
      let expectedSignature :=
        Js.hex_encode
          (hmac_sha256 E (CSRF_SECRET E)
             (Js.ToString tokenUserId +:+ ":" +:+ Js.ToString timestamp)) in
      let! given := Js.Buffer_from signature in
      let! expected := Js.Buffer_from (Some expectedSignature) in
      Js.timingSafeEqual given expected.

Definition verifyCsrfToken (now : Z) (token : string) (userId : Z)
  : completion bool :=
  try_catch (verifyCsrfToken_try now token userId) (fun _ => Normal false).

(** [getCurrentUser], given the cookie store that [cookies()] resolves to *)
Definition getCurrentUser (now : Z) (cookieStore : gmap string string)
  : completion (option JwtPayload) :=
  let token := cookieStore !! "auth_token" in
  if negb (Js.truthy token) then Normal None
  else verifyToken now (Js.ToString token).

Definition getUserFromHeader (now : Z) (authHeader : option string)
  : completion (option JwtPayload) :=
  match authHeader with
  | Some h =>
      if negb (Js.startsWith h "Bearer ") then Normal None
      else
        let token := nth 1 (Js.split " " h) "" in
        verifyToken now token
  | None => Normal None
  end.

End WithEnv.

End Auth.

(** ** 5. [lib/csrf.ts] *)

Module Csrf.

(** Modelled from the spec: [errorResponse] of [lib/api-response.ts], which
    is not among the sources. The spec gives a CSRF failure as an HTTP 403
    with a message; the value keeps the message and the status the call is
    given. *)
Record ErrorResponse : Type := errorResponse {
  message : string;
  status : Z
}.

Definition MUTATIONS : list string := ["POST"; "PUT"; "DELETE"; "PATCH"].

(** [null] (here [None]) lets the request through. *)
Definition validateCsrf (E : Auth.Env) (now : Z) (request : Request)
  : completion (option ErrorResponse) :=
  let method := Js.toUpperCase (method request) in
  if negb (Js.includes MUTATIONS method) then Normal None
  else
    let! user := Auth.getUserFromRequest E now request in
    match user with
    | None => Normal None
    | Some user =>
        let csrfToken :=
          Js.or_else (headers_get request "x-csrf-token")
                     (cookies_get request "csrf_token") in
        if negb (Js.truthy csrfToken) then
          Normal (Some (errorResponse "CSRF token missing" 403))
        else
          let! valid :=
            Auth.verifyCsrfToken E now (Js.ToString csrfToken)
              (Auth.id (Auth.claims user)) in
          if negb valid then Normal (Some (errorResponse "Invalid CSRF token" 403))
          else Normal None
    end.

Definition CSRF_EXEMPT_PATHS : list string :=
  [ "/api/auth/login";
    "/api/auth/send-otp";
    "/api/auth/verify-otp";
    "/api/auth/forgot-password";
    "/api/auth/reset-password" ].

Definition isCsrfExempt (pathname : string) : bool :=
  existsb
    (fun path => String.eqb pathname path || Js.startsWith pathname (path +:+ "/"))
    CSRF_EXEMPT_PATHS.

End Csrf.

(** ** 6. [middleware.ts] *)

Module Middleware.

Inductive NextResponse : Type :=
  | redirect (url : string)
  | json (success : bool) (message : string) (status : Z)
  | next.

Definition publicPaths : list string :=
  [ "/login";
    "/register";
    "/forgot-password";
    "/api/auth/login";
    "/api/auth/logout";
    "/api/auth/send-otp";
    "/api/auth/verify-otp";
    "/api/auth/forgot-password";
    "/api/auth/reset-password" ].

Definition csrfExemptPaths : list string :=
  [ "/api/auth/login";
    "/api/auth/send-otp";
    "/api/auth/verify-otp";
    "/api/auth/forgot-password";
    "/api/auth/reset-password" ].

(** [paths.some((path) => pathname === path || pathname.startsWith(path + "/"))] *)
Definition some_path (paths : list string) (pathname : string) : bool :=
  existsb
    (fun path => String.eqb pathname path || Js.startsWith pathname (path +:+ "/"))
    paths.

(** [cookieToken || headerToken]: the cookie first, else the Authorization
    header with its first ["Bearer "] removed *)
Definition session_token (request : Request) : option string :=
  let cookieToken := cookies_get request "auth_token" in
  let headerToken :=
    match headers_get request "authorization" with
    | Some h => Some (Js.replace "Bearer " "" h)
    | None => None
    end in
  Js.or_else cookieToken headerToken.

Definition middleware (request : Request) : NextResponse :=
  let pathname := pathname request in
  let isPublicPath := some_path publicPaths pathname in
  let token := session_token request in
  if isPublicPath && Js.truthy token
     && negb (String.eqb pathname "/api/auth/login")
     && negb (String.eqb pathname "/api/auth/logout")
     && negb (Js.startsWith pathname "/api/")
  then redirect "/dashboard"
  else if negb isPublicPath && negb (Js.truthy token)
  then
    if Js.startsWith pathname "/api/" then json false "Unauthorized" 401
    else redirect "/login"
  else
    let method := Js.toUpperCase (method request) in
    let isMutation := Js.includes ["POST"; "PUT"; "DELETE"; "PATCH"] method in
    let isCsrfExempt := some_path csrfExemptPaths pathname in
    let csrfToken := headers_get request "x-csrf-token" in
    if Js.startsWith pathname "/api/" && Js.truthy token
       && isMutation && negb isCsrfExempt && negb (Js.truthy csrfToken)
    then json false "CSRF token required" 403
    else next.

End Middleware.

(** ** 7. [lib/rate-limit.ts] *)

Module RateLimit.

Record RateLimitEntry : Type := {
  count : Z;
  resetTime : Z
}.

Record RateLimitConfig : Type := {
  maxRequests : Z;
  windowSeconds : Z;
  prefix : option string
}.

Record RateLimitResult : Type := {
  success : bool;
  remaining : Z;
  resetIn : Z;
  limit : Z
}.

(** [`${prefix}:${identifier}`], the prefix defaulting to the empty string *)
Definition key_of (identifier : string) (config : RateLimitConfig) : string :=
  match prefix config with Some p => p | None => "" end +:+ ":" +:+ identifier.

(** [checkRateLimit] run at clock [now] on the store [rateLimitStore]: the
    result and the store afterwards. The entry held by the map is the object
    the code increments, so the increment shows in the store. *)
Definition checkRateLimit (identifier : string) (config : RateLimitConfig)
    (now : Z) (rateLimitStore : gmap string RateLimitEntry)
  : RateLimitResult * gmap string RateLimitEntry :=
  let key := key_of identifier config in
  let windowMs := (windowSeconds config * 1000)%Z in
  let fresh :=
    ({| success := true;
        remaining := (maxRequests config - 1)%Z;
        resetIn := windowSeconds config;
        limit := maxRequests config |},
     <[key := {| count := 1; resetTime := (now + windowMs)%Z |}]> rateLimitStore) in
  match rateLimitStore !! key with
  | None => fresh
  | Some entry =>
      if (now >? resetTime entry)%Z then fresh
      else if (count entry >=? maxRequests config)%Z then
        ({| success := false;
            remaining := 0;
            resetIn := Js.ceil_div (resetTime entry - now) 1000;
            limit := maxRequests config |},
         rateLimitStore)
      else
        let entry' := {| count := (count entry + 1)%Z; resetTime := resetTime entry |} in
        ({| success := true;
            remaining := (maxRequests config - count entry')%Z;
            resetIn := Js.ceil_div (resetTime entry' - now) 1000;
            limit := maxRequests config |},
         <[key := entry']> rateLimitStore)
  end.

(** The sweep that [setInterval] runs: entries whose window is over go. *)
Definition cleanup (now : Z) (rateLimitStore : gmap string RateLimitEntry)
  : gmap string RateLimitEntry :=
  filter (fun kv => ~ (now > resetTime (snd kv))%Z) rateLimitStore.

Definition loginRateLimit : RateLimitConfig :=
  {| maxRequests := 5; windowSeconds := 15 * 60; prefix := Some "login" |}.

(** What happens to the store: a call of [checkRateLimit], or a sweep. *)
Inductive event : Type :=
  | Check (identifier : string) (config : RateLimitConfig) (now : Z)
  | Sweep (now : Z).

Definition step (store : gmap string RateLimitEntry) (ev : event)
  : gmap string RateLimitEntry :=
  match ev with
  | Check identifier config now => snd (checkRateLimit identifier config now store)
  | Sweep now => cleanup now store
  end.

(** The store after a sequence of events, from the empty map the module
    starts with. *)
Definition run (evs : list event) : gmap string RateLimitEntry :=
  fold_left step evs ∅.

(** Every call of [checkRateLimit] on a key uses the limit [lim] gives that
    key. *)
Definition same_limit (lim : string -> Z) (evs : list event) : Prop :=
  Forall
    (fun ev =>
       match ev with
       | Check identifier config _ => maxRequests config = lim (key_of identifier config)
       | Sweep _ => True
       end)
    evs.

(** [getClientIp]: the first entry of [X-Forwarded-For], else [X-Real-IP],
    else ["unknown"] *)
Definition getClientIp (request : Request) : string :=
  let forwardedFor := headers_get request "x-forwarded-for" in
  if Js.truthy forwardedFor then
    Js.trim (nth 0 (Js.split "," (Js.ToString forwardedFor)) "")
  else
    let realIp := headers_get request "x-real-ip" in
    if Js.truthy realIp then Js.ToString realIp
    else "unknown".

Definition registerRateLimit : RateLimitConfig :=
  {| maxRequests := 3; windowSeconds := 60 * 60; prefix := Some "register" |}.

Definition otpRateLimit : RateLimitConfig :=
  {| maxRequests := 3; windowSeconds := 10 * 60; prefix := Some "otp" |}.

Definition passwordResetRateLimit : RateLimitConfig :=
  {| maxRequests := 3; windowSeconds := 30 * 60; prefix := Some "password-reset" |}.

Definition generalApiRateLimit : RateLimitConfig :=
  {| maxRequests := 100; windowSeconds := 60; prefix := Some "api" |}.

(** The pre-configured limiters *)
Definition limiters : list RateLimitConfig :=
  [loginRateLimit; registerRateLimit; otpRateLimit; passwordResetRateLimit;
   generalApiRateLimit].

End RateLimit.

(** A run of [checkRateLimit] calls for one identifier and configuration, at
    the given clock readings: the results in order and the final store. *)
Fixpoint checkRateLimit_at (identifier : string) (config : RateLimit.RateLimitConfig)
    (times : list Z) (store : gmap string RateLimit.RateLimitEntry)
  : list RateLimit.RateLimitResult * gmap string RateLimit.RateLimitEntry :=
  match times with
  | [] => ([], store)
  | now :: later =>
      let '(r, store1) := RateLimit.checkRateLimit identifier config now store in
      let '(rs, store2) := checkRateLimit_at identifier config later store1 in
      (r :: rs, store2)
  end.

(** ** 8. A reference environment

    A small signed-token format and a stand-in keyed digest. They instantiate
    the parameters of [Auth.Env] where a statement needs a concrete
    environment, and show that [Auth.jwt_contract] can be met. *)

Module Reference.

(** Stand-in for the keyed hash: any function of key and data will do. *)
Definition mac (key data : string) : string := key +:+ "|" +:+ data.

Fixpoint hex_decode (s : string) : option string :=
  match s with
  | EmptyString => Some EmptyString
  | String a (String b r) =>
      match Js.digit_in 16 a, Js.digit_in 16 b, hex_decode r with
      | Some x, Some y, Some t => Some (String (ascii_of_N (x * 16 + y)) t)
      | _, _, _ => None
      end
  | String _ EmptyString => None
  end.

(** The signed part of a token: the claims and the two times, dot-separated;
    text fields are written in hex so that they hold no dot. *)
Definition body (p : Auth.TokenPayload) (issued expires : Z) : string :=
  Js.decimal (Auth.id p) +:+ "." +:+ Js.hex_encode (Auth.email p)
  +:+ "." +:+ Js.hex_encode (Auth.username p)
  +:+ "." +:+ (if Auth.is_host p then "1" else "0")
  +:+ "." +:+ Js.decimal issued +:+ "." +:+ Js.decimal expires.

Definition sign (p : Auth.TokenPayload) (secret : string) (expiresIn now : Z) : string :=
  let issued := (now / 1000)%Z in
  let b := body p issued (issued + expiresIn) in
  b +:+ "." +:+ Js.hex_encode (mac secret b).

Definition verify (token secret : string) (now : Z) : completion Auth.JwtPayload :=
  match Js.split "." token with
  | [i; e; u; h; ia; ex; sg] =>
      let b := i +:+ "." +:+ e +:+ "." +:+ u +:+ "." +:+ h +:+ "." +:+ ia +:+ "." +:+ ex in
      if negb (String.eqb sg (Js.hex_encode (mac secret b)))
      then Throw (JsonWebTokenError "invalid signature")
      else
        match Js.parseInt i, hex_decode e, hex_decode u, Js.parseInt ia, Js.parseInt ex with
        | Js.Num i', Some e', Some u', Js.Num ia', Js.Num ex' =>
            if (now / 1000 >=? ex')%Z then Throw (TokenExpiredError "jwt expired")
            else Normal
                   {| Auth.claims :=
                        {| Auth.id := i'; Auth.email := e'; Auth.username := u';
                           Auth.is_host := String.eqb h "1" |};
                      Auth.iat := ia';
                      Auth.exp := ex' |}
        | _, _, _, _, _ => Throw (JsonWebTokenError "jwt malformed")
        end
  | _ => Throw (JsonWebTokenError "jwt malformed")
  end.

Definition env : Auth.Env :=
  {| Auth.JWT_SECRET := "jwt-secret";
     Auth.CSRF_SECRET := "csrf-secret";
     Auth.hmac_sha256 := mac;
     Auth.jwt_sign := sign;
     Auth.jwt_verify := verify |}.

Definition alice : Auth.User :=
  {| Auth.user_id := 7;
     Auth.user_email := "alice@example.com";
     Auth.user_username := "alice";
     Auth.user_is_host := None |}.

(** Alice's session token and CSRF token, both issued at clock 0 *)
Definition session : string := Auth.generateToken env 0 alice.
Definition csrf : string := Auth.generateCsrfToken env 0 7.

(** [POST /api/teams] with the session cookie and the CSRF token in the
    [csrf_token] cookie only: no [X-CSRF-Token] header. *)
Definition cookie_only_request : Request :=
  {| method := "POST";
     pathname := "/api/teams";
     cookies := <["auth_token" := session]> {["csrf_token" := csrf]};
     headers := ∅ |}.

(** The same request with the CSRF token echoed in the header *)
Definition header_request : Request :=
  {| method := "POST";
     pathname := "/api/teams";
     cookies := <["auth_token" := session]> {["csrf_token" := csrf]};
     headers := {["x-csrf-token" := csrf]} |}.

(** An [auth_token] cookie with an empty value beside a valid Bearer token *)
Definition empty_cookie_request : Request :=
  {| method := "GET";
     pathname := "/api/auth/me";
     cookies := {["auth_token" := ""]};
     headers := {["authorization" := "Bearer " +:+ session]} |}.

(** A cookie that fails verification beside a valid Bearer token *)
Definition bad_cookie_request : Request :=
  {| method := "GET";
     pathname := "/api/auth/me";
     cookies := {["auth_token" := "garbage"]};
     headers := {["authorization" := "Bearer " +:+ session]} |}.

(** A client address and the events of seven login attempts by it, the
    sweep running in between *)
Definition client : string := "203.0.113.9".

Definition login_attempts : list RateLimit.event :=
  [ RateLimit.Check client RateLimit.loginRateLimit 0;
    RateLimit.Check client RateLimit.loginRateLimit 1000;
    RateLimit.Check client RateLimit.loginRateLimit 2000;
    RateLimit.Sweep 2500;
    RateLimit.Check client RateLimit.loginRateLimit 3000;
    RateLimit.Check client RateLimit.loginRateLimit 4000;
    RateLimit.Check client RateLimit.loginRateLimit 5000;
    RateLimit.Check client RateLimit.loginRateLimit 6000 ].

(** A store in which the client has used up its login attempts *)
Definition exhausted : gmap string RateLimit.RateLimitEntry :=
  {[ "login:203.0.113.9" := {| RateLimit.count := 5; RateLimit.resetTime := 900000 |} ]}.

End Reference.

(** ** 9. Vocabulary of the statements *)

Fixpoint all_chars (P : ascii -> bool) (s : string) : bool :=
  match s with
  | EmptyString => true
  | String c r => P c && all_chars P r
  end.

Definition is_digit (c : ascii) : bool := ((48 <=? Js.code c) && (Js.code c <=? 57))%N.

Definition is_hex (c : ascii) : bool :=
  is_digit c || ((97 <=? Js.code c) && (Js.code c <=? 102))%N.

(** The characters of ASCII: a text made of them is the same whether it is
    read as bytes or as UTF-8 *)
Definition is_ascii (c : ascii) : bool := (Js.code c <? 128)%N.

(** Strings that do not hold the character [sep] *)
Definition lacks (sep : ascii) (s : string) : bool :=
  all_chars (fun c => negb (Ascii.eqb c sep)) s.

(** The colon-delimited fields of what a token decodes to *)
Definition csrf_fields (token : string) : list string :=
  Js.split ":" (Js.base64_decode token).

(** The text a CSRF token issued at [issued] for [userId] decodes to *)
Definition csrf_text (E : Auth.Env) (issued userId : Z) : string :=
  let data := Js.Number_toString userId +:+ ":" +:+ Js.Number_toString issued in
  data +:+ ":" +:+ Js.hex_encode (Auth.hmac_sha256 E (Auth.CSRF_SECRET E) data).

(** The same text, with further colon-delimited material appended or not *)
Definition csrf_text_with (E : Auth.Env) (issued userId : Z) (extra : option string) : string :=
  match extra with
  | Some x => csrf_text E issued userId +:+ ":" +:+ x
  | None => csrf_text E issued userId
  end.

(** No stored count is above the limit of its key plus one, a negative limit
    counting as zero. *)
Definition count_bounded (lim : string -> Z) (store : gmap string RateLimit.RateLimitEntry) : Prop :=
  forall k e, store !! k = Some e -> (RateLimit.count e <= Z.max (lim k) 0 + 1)%Z.

(** ** 10. The rate-limit prelude of [POST /api/auth/send-otp] *)

Module SendOtp.

(** The first statements of the handler: the registration limiter, then the
    OTP limiter, each a call of [checkRateLimit] with its own reading of the
    clock. [Some r] is the denial that [rateLimitResponse] is given; [None]
    lets the handler go on. *)
Definition rateLimit (request : Request) (now1 now2 : Z)
    (store : gmap string RateLimit.RateLimitEntry)
  : option RateLimit.RateLimitResult * gmap string RateLimit.RateLimitEntry :=
  let clientIp := RateLimit.getClientIp request in
  let '(registerLimit, store1) :=
    RateLimit.checkRateLimit clientIp RateLimit.registerRateLimit now1 store in
  if negb (RateLimit.success registerLimit) then (Some registerLimit, store1)
  else
    let '(otpLimit, store2) :=
      RateLimit.checkRateLimit clientIp RateLimit.otpRateLimit now2 store1 in
    if negb (RateLimit.success otpLimit) then (Some otpLimit, store2)
    else (None, store2).

End SendOtp.

(** ** 11. The API client *)

Module ApiClient.

(** The match of [/csrf_token=([^;]+)/] that starts at the head of [s]: its
    capture group *)
Definition match_here (s : string) : option string :=
  if String.prefix "csrf_token=" s then
    let value := Js.take_until ";" (Js.drop 11 s) in
    if String.eqb value "" then None else Some value
  else None.

(** The leftmost match in [s] *)
Fixpoint match_csrf (s : string) : option string :=
  match match_here s with
  | Some value => Some value
  | None =>
      match s with
      | EmptyString => None
      | String _ r => match_csrf r
      end
  end.

(** [getCsrfToken], given [document.cookie], or [None] where there is no
    [document] *)
Definition getCsrfToken (document_cookie : option string) : option string :=
  match document_cookie with
  | None => None
  | Some cookie => match_csrf cookie
  end.




(** HTTP white space: tab, line feed, carriage return and space *)
Definition is_http_ws (c : ascii) : bool :=
  ((Js.code c =? 9) || (Js.code c =? 10) || (Js.code c =? 13) || (Js.code c =? 32))%N.

Fixpoint drop_http_ws (s : string) : string :=
  match s with
  | EmptyString => EmptyString
  | String c r => if is_http_ws c then drop_http_ws r else s
  end.

(** A header value as a [Headers] object keeps it: without the HTTP white
    space before and after it *)
Definition normalize_value (value : string) : string :=
  Js.reverse (drop_http_ws (Js.reverse (drop_http_ws value))).

(** What a header value may hold: no NUL, line feed or carriage return, and
    no character above U+00FF, which in UTF-8 shows as a byte from 0xC4 on *)
Definition value_char (c : ascii) : bool :=
  (negb (Js.code c =? 0) && negb (Js.code c =? 10) && negb (Js.code c =? 13)
   && (Js.code c <? 196))%N.

(** [headers.set(name, value)] for a header name, written in lower case as
    the [Headers] object keeps it: the value is normalized, and a [TypeError]
    is thrown when it is not a header value. *)
Definition Headers_set (headers : gmap string string) (name value : string)
  : completion (gmap string string) :=
  let value := normalize_value value in
  if all_chars value_char value then Normal (<[name := value]> headers)
  else Throw (TypeError "Invalid header value").


End ApiClient.

(** ** 12. [validateWithSchema] of [lib/validations.ts] *)

Module Validations.

(** An entry of a Zod issue path: a key or an array index *)
Inductive PathItem : Type :=
  | Key (k : string)
  | Index (i : Z).

Record ZodIssue : Type := {
  path : list PathItem;
  message : string
}.

(** What [schema.safeParse(data)] returns *)
Inductive SafeParse (T : Type) : Type :=
  | ParseSuccess (data : T)
  | ParseError (issues : list ZodIssue).
Arguments ParseSuccess {T} data.
Arguments ParseError {T} issues.

Inductive ValidationResult (T : Type) : Type :=
  | Valid (data : T)
  | Invalid (error : string) (details : list ZodIssue).
Arguments Valid {T} data.
Arguments Invalid {T} error details.

Definition item_text (i : PathItem) : string :=
  match i with
  | Key k => k
  | Index n => Js.Number_toString n
  end.

(** [path.join(".")] *)
Fixpoint join_path (p : list PathItem) : string :=
  match p with
  | [] => ""
  | [i] => item_text i
  | i :: rest => item_text i +:+ "." +:+ join_path rest
  end.

(** [s.replace(/^:\s*/, "")] *)
Definition strip_colon (s : string) : string :=
  match s with
  | String c r => if Ascii.eqb c ":" then Js.trimStart r else s
  | EmptyString => s
  end.

Definition validateWithSchema {D T : Type} (schema : D -> SafeParse T) (data : D)
  : ValidationResult T :=
  match schema data with
  | ParseSuccess d => Valid d
  | ParseError issues =>
      let errorMessage :=
        match issues with
        | firstError :: _ =>
            strip_colon (join_path (path firstError) +:+ ": " +:+ message firstError)
        | [] => "Validation failed"
        end in
      Invalid errorMessage issues
  end.

End Validations.

(** ** 13. What [POST /api/auth/login] issues *)

Module Login.

(** The cookies the handler sets once the password is verified: the session
    token from [generateToken(user)] as [auth_token], the token from
    [generateCsrfToken(user.id)] as [csrf_token]; each call reads the clock. *)
Definition cookies (E : Auth.Env) (now1 now2 : Z) (user : Auth.User) : gmap string string :=
  let token := Auth.generateToken E now1 user in
  let csrfToken := Auth.generateCsrfToken E now2 (Auth.user_id user) in
  <["csrf_token" := csrfToken]> (<["auth_token" := token]> ∅).

End Login.

(** ** 14. Vocabulary of the further statements *)

(** Whether a match of the cookie pattern starts inside [pre], in the text
    [pre] followed by [rest] *)
Fixpoint matches_within (pre rest : string) : bool :=
  match pre with
  | EmptyString => false
  | String _ r =>
      match ApiClient.match_here (pre +:+ rest) with
      | Some _ => true
      | None => matches_within r rest
      end
  end.

(** * Properties *)

(** ** Sanity checks of the runtime model *)

Example parseInt_skips_space_and_stops : Js.parseInt "  -42abc" = Js.Num (-42).
Proof. reflexivity. Qed.

Example parseInt_reads_hex_prefix : Js.parseInt "0x1F:" = Js.Num 31.
Proof. reflexivity. Qed.

Example parseInt_of_undefined : Js.parseInt "undefined" = Js.NaN.
Proof. reflexivity. Qed.

Example Number_toString_negative : Js.Number_toString (-1730000000000) = "-1730000000000".
Proof. reflexivity. Qed.

Example Number_toString_small : Js.Number_toString 1000 = "1000" /\ Js.Number_toString 9 = "9" /\ Js.Number_toString 10 = "10".
Proof. repeat split; reflexivity. Qed.

Example Number_toString_exponent : Js.Number_toString (10 ^ 20) = "100000000000000000000" /\ Js.Number_toString (10 ^ 21) = "1e+21" /\ Js.Number_toString (15 * 10 ^ 20) = "1.5e+21" /\ Js.Number_toString (123 * 10 ^ 21) = "1.23e+23".
Proof. repeat split; reflexivity. Qed.

Example parseInt_of_exponent : Js.parseInt "1e+21" = Js.Num 1 /\ Js.parseInt "1.5e+21" = Js.Num 1.
Proof. split; reflexivity. Qed.

Example split_keeps_empty_fields : Js.split ":" "a:b::c" = ["a"; "b"; ""; "c"].
Proof. reflexivity. Qed.

Example replace_first_only : Js.replace "Bearer " "" "xBearer yBearer z" = "xyBearer z".
Proof. reflexivity. Qed.

Example base64_encode_samples : Js.base64_encode "5:1000:ab" = "NToxMDAwOmFi" /\ Js.base64_encode "hello" = "aGVsbG8=" /\ Js.base64_encode "a" = "YQ==".
Proof. repeat split; reflexivity. Qed.

Example base64_decode_is_lenient : Js.base64_decode "aGVs bG8=zz" = "hello" /\ Js.base64_decode "YQ==" = "a" /\ Js.base64_decode "NToxMDAwOmFi" = "5:1000:ab".
Proof. repeat split; reflexivity. Qed.

Example hex_encode_sample : Js.hex_encode "J/" = "4a2f".
Proof. reflexivity. Qed.

Example Headers_set_normalizes : ApiClient.Headers_set ∅ "x-csrf-token" "  abc d " = Normal {[ "x-csrf-token" := "abc d" ]}.
Proof. reflexivity. Qed.

Example Headers_set_throws : ApiClient.Headers_set ∅ "x-csrf-token" (String "a" (String (ascii_of_N 10) "b")) = Throw (TypeError "Invalid header value") /\ ApiClient.Headers_set ∅ "x-csrf-token" (String (ascii_of_N 196) (String (ascii_of_N 128) "")) = Throw (TypeError "Invalid header value").
Proof. split; reflexivity. Qed.

(** ** Numbers and their decimal text *)

Lemma N_forall_below (f : N -> bool) (k : nat) :
  forallb f (map N.of_nat (seq 0 k)) = true ->
  forall n, (n < N.of_nat k)%N -> f n = true.
Proof.
  intros H n Hn. rewrite forallb_forall in H. apply H.
  apply in_map_iff. exists (N.to_nat n). split; [apply N2Nat.id|].
  apply in_seq. lia.
Qed.

Lemma code_lt_256 c : (Js.code c < 256)%N.
Proof. apply N_ascii_bounded. Qed.

Lemma char_of_code c : ascii_of_N (Js.code c) = c.
Proof. apply ascii_N_embedding. Qed.

Lemma digit_in_digit_char d :
  (d < 10)%N -> Js.digit_in 10 (Js.digit_char d) = Some d /\ is_digit (Js.digit_char d) = true.
Proof.
  intros Hd.
  pose proof (N_forall_below
    (fun d => match Js.digit_in 10 (Js.digit_char d) with Some x => (x =? d)%N | None => false end
              && is_digit (Js.digit_char d)) 10 eq_refl d Hd) as H.
  cbv beta in H. apply andb_true_iff in H as [H1 H2]. split; [|exact H2].
  destruct (Js.digit_in 10 (Js.digit_char d)); [|discriminate].
  apply N.eqb_eq in H1. congruence.
Qed.

Lemma read_digits_of fuel : forall n, (n < 2 ^ N.of_nat fuel)%N ->
  exists k, forall rest a,
    Js.read_digits 10 (Js.digits_of fuel n rest) a = Js.read_digits 10 rest (a * 10 ^ k + n).
Proof.
  induction fuel as [|f IH]; intros n Hn.
  - exists 0%N. intros. simpl in *. f_equal. lia.
  - cbn [Js.digits_of].
    assert (Hmod : (n mod 10 < 10)%N) by (apply N.mod_lt; lia).
    destruct (digit_in_digit_char _ Hmod) as [Hd _].
    destruct (N.eqb_spec (n / 10) 0) as [Hz|Hz].
    + exists 1%N. intros. cbn [Js.read_digits]. rewrite Hd. f_equal.
      pose proof (N.div_mod n 10). lia.
    + destruct (IH (n / 10)%N) as [k Hk].
      { rewrite Nat2N.inj_succ, N.pow_succ_r' in Hn.
        apply N.Div0.div_lt_upper_bound. lia. }
      exists (k + 1)%N. intros. rewrite Hk. cbn [Js.read_digits]. rewrite Hd. f_equal.
      rewrite N.pow_add_r. pose proof (N.div_mod n 10). lia.
Qed.

Lemma all_chars_impl (P Q : ascii -> bool) s :
  (forall c, P c = true -> Q c = true) -> all_chars P s = true -> all_chars Q s = true.
Proof.
  intros HPQ. induction s as [|c r IH]; simpl; [easy|].
  rewrite !andb_true_iff. intros [? ?]. auto.
Qed.

Lemma digits_of_all_digits fuel : forall n rest,
  all_chars is_digit rest = true -> all_chars is_digit (Js.digits_of fuel n rest) = true.
Proof.
  induction fuel as [|f IH]; intros n rest Hrest; cbn [Js.digits_of]; [exact Hrest|].
  assert (Hacc : all_chars is_digit (String (Js.digit_char (n mod 10)) rest) = true).
  { simpl. rewrite Hrest, andb_true_r. apply digit_in_digit_char, N.mod_lt. lia. }
  destruct (n / 10 =? 0)%N; auto.
Qed.

Lemma digits_of_length fuel : forall n rest,
  (String.length rest <= String.length (Js.digits_of fuel n rest))%nat.
Proof.
  induction fuel as [|f IH]; intros n rest; cbn [Js.digits_of]; [lia|].
  destruct (n / 10 =? 0)%N; [simpl; lia|].
  etransitivity; [|apply IH]. simpl. lia.
Qed.

Lemma N_toString_digits n :
  all_chars is_digit (Js.N_toString n) = true /\ Js.N_toString n <> "".
Proof.
  split; [now apply digits_of_all_digits|].
  unfold Js.N_toString. cbn [Js.digits_of]. intros H.
  destruct (n / 10 =? 0)%N; [discriminate|].
  pose proof (digits_of_length (N.to_nat (N.log2 n)) (n / 10)
                (String (Js.digit_char (n mod 10)) "")) as Hlen.
  rewrite H in Hlen. simpl in Hlen. lia.
Qed.

Lemma N_toString_value n : Js.read_digits 10 (Js.N_toString n) 0 = n.
Proof.
  unfold Js.N_toString.
  destruct (read_digits_of (S (N.to_nat (N.log2 n))) n) as [k Hk].
  { rewrite Nat2N.inj_succ, N2Nat.id.
    destruct (N.eq_dec n 0%N) as [->|Hn]; [reflexivity|].
    apply N.log2_spec. lia. }
  rewrite Hk. simpl. lia.
Qed.

Lemma is_digit_cases c :
  is_digit c = true ->
  In c ["0"; "1"; "2"; "3"; "4"; "5"; "6"; "7"; "8"; "9"]%char.
Proof.
  unfold is_digit. rewrite andb_true_iff, !N.leb_le. intros [Hlo Hhi].
  rewrite <- (char_of_code c).
  assert (H : (Js.code c = 48 \/ Js.code c = 49 \/ Js.code c = 50 \/ Js.code c = 51
               \/ Js.code c = 52 \/ Js.code c = 53 \/ Js.code c = 54 \/ Js.code c = 55
               \/ Js.code c = 56 \/ Js.code c = 57)%N) by lia.
  repeat (destruct H as [H|H]; [rewrite H; simpl; tauto|]).
  rewrite H; simpl; tauto.
Qed.

Ltac digit_cases H :=
  apply is_digit_cases in H; simpl in H;
  repeat (destruct H as [H|H]; [subst|]); [..|contradiction].

Lemma parseInt_digits s :
  s <> "" -> all_chars is_digit s = true ->
  Js.parseInt s = Js.Num (Z.of_N (Js.read_digits 10 s 0))
  /\ Js.parseInt (String "-" s) = Js.Num (- Z.of_N (Js.read_digits 10 s 0)).
Proof.
  intros Hne Hall. destruct s as [|c1 r1]; [congruence|]. clear Hne.
  simpl in Hall. apply andb_true_iff in Hall as [H1 Hr1].
  assert (Hhas : Js.has_digit 10 (String c1 r1) = true).
  { clear Hr1. digit_cases H1; reflexivity. }
  assert (Htrim : forall s, Js.trimStart (String c1 s) = String c1 s).
  { intros s. clear Hr1 Hhas. digit_cases H1; destruct s as [|c2 [|c3 r3]]; reflexivity. }
  assert (Hpre : (String.prefix "0x" (String c1 r1) || String.prefix "0X" (String c1 r1)) = false).
  { clear Htrim Hhas. destruct r1 as [|c2 r2]; [digit_cases H1; reflexivity|].
    simpl in Hr1. apply andb_true_iff in Hr1 as [H2 _].
    digit_cases H1; try reflexivity; digit_cases H2; reflexivity. }
  split.
  - unfold Js.parseInt. rewrite Htrim.
    assert (Hs : (Js.code c1 =? 45)%N = false /\ (Js.code c1 =? 43)%N = false).
    { clear - H1. digit_cases H1; split; reflexivity. }
    destruct Hs as [-> ->]. rewrite Hpre, Hhas. f_equal. lia.
  - unfold Js.parseInt.
    replace (Js.trimStart (String "-" (String c1 r1))) with (String "-" (String c1 r1)).
    2:{ clear - H1. destruct r1 as [|c3 r3]; digit_cases H1; reflexivity. }
    change (Js.code "-" =? 45)%N with true. cbv iota beta.
    rewrite Hpre, Hhas. f_equal; lia.
Qed.

Lemma parseInt_decimal z : Js.parseInt (Js.decimal z) = Js.Num z.
Proof.
  destruct z as [|p|p]; [reflexivity| |]; simpl Js.decimal;
    destruct (N_toString_digits (Npos p)) as [Hall Hne];
    destruct (parseInt_digits _ Hne Hall) as [Hpos Hneg];
    [rewrite Hpos|rewrite Hneg]; rewrite N_toString_value; reflexivity.
Qed.

Lemma decimal_inj z z' : Js.decimal z = Js.decimal z' -> z = z'.
Proof.
  intros H. apply (f_equal Js.parseInt) in H. rewrite !parseInt_decimal in H. congruence.
Qed.

Lemma N_toString_inj n n' : Js.N_toString n = Js.N_toString n' -> n = n'.
Proof.
  intros H. apply (f_equal (fun s => Js.read_digits 10 s 0)) in H.
  now rewrite !N_toString_value in H.
Qed.

Lemma safe_integer_plain z : Js.safe_integer z -> (z < 10 ^ 21)%Z.
Proof.
  intros [_ Hhi]. assert (Hc : (2 ^ 53 - 1 < 10 ^ 21)%Z) by reflexivity. lia.
Qed.

Lemma Number_toString_plain z : (z < 10 ^ 21)%Z -> Js.Number_toString z = Js.decimal z.
Proof.
  intros Hz. unfold Js.Number_toString.
  destruct (Z.ltb_spec z (10 ^ 21)); [reflexivity|lia].
Qed.

(** Below 10^21 the text of a number reads back as the number. *)
Lemma parseInt_Number_toString z :
  (z < 10 ^ 21)%Z -> Js.parseInt (Js.Number_toString z) = Js.Num z.
Proof. intros Hz. rewrite (Number_toString_plain z Hz). apply parseInt_decimal. Qed.

(** A number from 10^21 on is positive: its text is a first digit and the
    digits after it. *)
Lemma decimal_large z :
  (10 ^ 21 <= z)%Z ->
  exists d rest, Js.decimal z = String d rest
    /\ is_digit d = true /\ all_chars is_digit rest = true.
Proof.
  intros Hz. destruct z as [|p|p]; [exfalso; apply Hz; reflexivity| |exfalso; apply Hz; reflexivity].
  simpl Js.decimal. destruct (N_toString_digits (Npos p)) as [Hall Hne].
  destruct (Js.N_toString (N.pos p)) as [|d rest]; [congruence|].
  simpl in Hall. apply andb_true_iff in Hall as [Hd Hrest]. eauto.
Qed.

(** A digit followed by a character that is neither a digit nor an [x]
    reads as the digit. *)
Lemma parseInt_one_digit d c tail :
  is_digit d = true -> Js.digit_in 10 c = None -> c <> "x"%char -> c <> "X"%char ->
  exists v, (0 <= v <= 9)%Z /\ Js.parseInt (String d (String c tail)) = Js.Num v.
Proof.
  intros Hd Hc Hx HX.
  assert (Htrim : Js.trimStart (String d (String c tail)) = String d (String c tail)).
  { clear Hc Hx HX. digit_cases Hd; destruct tail as [|c3 r3]; reflexivity. }
  assert (Hpre : (String.prefix "0x" (String d (String c tail))
                  || String.prefix "0X" (String d (String c tail))) = false).
  { clear Htrim. cbn [String.prefix].
    destruct (ascii_dec "x" c) as [Heq|_]; [congruence|].
    destruct (ascii_dec "X" c) as [Heq|_]; [congruence|].
    digit_cases Hd; reflexivity. }
  unfold Js.parseInt. rewrite Htrim.
  assert (Hs : (Js.code d =? 45)%N = false /\ (Js.code d =? 43)%N = false).
  { clear - Hd. digit_cases Hd; split; reflexivity. }
  destruct Hs as [-> ->]. rewrite Hpre.
  assert (Hv : exists v, (v <= 9)%N /\ Js.digit_in 10 d = Some v).
  { clear - Hd.
    digit_cases Hd; eexists; (split; [|vm_compute; reflexivity]); vm_compute; discriminate. }
  destruct Hv as (v & Hv9 & Hv).
  cbn [Js.has_digit Js.read_digits]. rewrite Hv, Hc.
  exists (Z.of_N v). split; [lia|]. f_equal. lia.
Qed.

(** ** Fields of a separated text, hex and base64 *)

Lemma append_nil b : "" +:+ b = b.
Proof. reflexivity. Qed.

Lemma append_String c a b : String c a +:+ b = String c (a +:+ b).
Proof. reflexivity. Qed.

Lemma append_assoc a b c : (a +:+ b) +:+ c = a +:+ (b +:+ c).
Proof.
  induction a as [|x a IH]; [reflexivity|].
  rewrite !append_String. f_equal. exact IH.
Qed.

Lemma split_lacks sep s : lacks sep s = true -> Js.split sep s = [s].
Proof.
  unfold lacks. induction s as [|c r IH]; simpl; [easy|].
  rewrite andb_true_iff, negb_true_iff. intros [-> Hr]. now rewrite (IH Hr).
Qed.

Lemma split_nonempty sep s : Js.split sep s <> [].
Proof.
  destruct s as [|c r]; cbn [Js.split]; [discriminate|].
  destruct (Ascii.eqb c sep); [discriminate|].
  destruct (Js.split sep r); discriminate.
Qed.

Lemma split_app sep a r :
  lacks sep a = true -> Js.split sep (a +:+ String sep r) = a :: Js.split sep r.
Proof.
  unfold lacks. induction a as [|c a' IH]; [rewrite append_nil|rewrite append_String]; simpl.
  - intros _. now rewrite Ascii.eqb_refl.
  - rewrite andb_true_iff, negb_true_iff. intros [-> Ha]. now rewrite (IH Ha).
Qed.

Lemma digits_lack sep s :
  is_digit sep = false -> all_chars is_digit s = true -> lacks sep s = true.
Proof.
  intros Hsep. apply all_chars_impl. intros c Hc.
  destruct (Ascii.eqb_spec c sep) as [->|]; [congruence|reflexivity].
Qed.

Lemma decimal_lacks sep z :
  is_digit sep = false -> sep <> "-"%char -> lacks sep (Js.decimal z) = true.
Proof.
  intros Hsep Hminus.
  destruct z as [|p|p]; simpl Js.decimal.
  - apply digits_lack; [exact Hsep|reflexivity].
  - apply digits_lack; [exact Hsep|apply N_toString_digits].
  - unfold lacks. cbn [all_chars]. fold (lacks sep (Js.N_toString (N.pos p))).
    rewrite digits_lack; [|exact Hsep|apply N_toString_digits].
    destruct (Ascii.eqb_spec "-" sep); [congruence|reflexivity].
Qed.

Lemma all_chars_app P a b : all_chars P (a +:+ b) = all_chars P a && all_chars P b.
Proof.
  induction a as [|c a IH]; [reflexivity|].
  rewrite append_String. cbn [all_chars]. now rewrite IH, andb_assoc.
Qed.

Lemma strip_zeros_all P s : all_chars P s = true -> all_chars P (Js.strip_zeros s) = true.
Proof.
  induction s as [|c r IH]; [easy|]. cbn [all_chars Js.strip_zeros]. cbv zeta.
  rewrite andb_true_iff. intros [Hc Hr].
  destruct ((Js.code c =? 48)%N && String.eqb (Js.strip_zeros r) ""); [reflexivity|].
  cbn [all_chars]. now rewrite Hc, IH.
Qed.

Lemma exponent_form_lacks sep digits :
  is_digit sep = false -> sep <> "."%char -> sep <> "e"%char -> sep <> "+"%char ->
  all_chars is_digit digits = true ->
  lacks sep (Js.exponent_form digits) = true.
Proof.
  intros Hsep Hdot He Hplus Hdigits.
  destruct digits as [|d rest]; [reflexivity|].
  simpl in Hdigits. apply andb_true_iff in Hdigits as [Hd Hrest].
  assert (Hfrac : lacks sep (Js.strip_zeros rest) = true)
    by (apply digits_lack; [exact Hsep|now apply strip_zeros_all]).
  assert (Hexp : lacks sep (Js.N_toString (N.of_nat (String.length rest))) = true)
    by (apply digits_lack; [exact Hsep|apply N_toString_digits]).
  assert (Hc : forall c, c <> sep -> negb (Ascii.eqb c sep) = true).
  { intros c Hne. destruct (Ascii.eqb_spec c sep); [congruence|reflexivity]. }
  cbn [Js.exponent_form]. cbv zeta. unfold lacks in *. cbn [all_chars].
  rewrite !all_chars_app. cbn [all_chars].
  rewrite Hexp, (Hc "e"%char), (Hc "+"%char) by congruence.
  replace (negb (Ascii.eqb d sep)) with true
    by (symmetry; apply Hc; intros ->; congruence).
  destruct (String.eqb (Js.strip_zeros rest) ""); [reflexivity|].
  cbn [all_chars]. now rewrite Hfrac, (Hc "."%char) by congruence.
Qed.

Lemma Number_toString_lacks sep z :
  is_digit sep = false -> sep <> "-"%char ->
  sep <> "."%char -> sep <> "e"%char -> sep <> "+"%char ->
  lacks sep (Js.Number_toString z) = true.
Proof.
  intros Hsep Hminus Hdot He Hplus. unfold Js.Number_toString.
  destruct (Z.ltb_spec z (10 ^ 21)) as [_|Hz]; [now apply decimal_lacks|].
  destruct (decimal_large z Hz) as (d & rest & Heq & Hd & Hrest). rewrite Heq.
  apply exponent_form_lacks; try assumption. simpl. now rewrite Hd, Hrest.
Qed.

Lemma exponent_form_shape d rest :
  exists c tail,
    Js.exponent_form (String d rest) = String d (String c tail)
    /\ (c = "."%char \/ c = "e"%char).
Proof.
  cbn [Js.exponent_form]. cbv zeta.
  destruct (String.eqb (Js.strip_zeros rest) "").
  - rewrite append_nil, append_String. eauto.
  - rewrite append_String. eauto.
Qed.

(** From 10^21 on the text of a number reads back as its first digit. *)
Lemma parseInt_Number_toString_large z :
  (10 ^ 21 <= z)%Z ->
  exists v, (0 <= v <= 9)%Z /\ Js.parseInt (Js.Number_toString z) = Js.Num v.
Proof.
  intros Hz. unfold Js.Number_toString.
  destruct (Z.ltb_spec z (10 ^ 21)); [lia|].
  destruct (decimal_large z Hz) as (d & rest & -> & Hd & _).
  destruct (exponent_form_shape d rest) as (c & tail & -> & [->| ->]);
    apply parseInt_one_digit; (exact Hd || reflexivity || discriminate).
Qed.

(** The text of a number tells the number. *)

Lemma exponent_form_has_e d rest : lacks "e" (Js.exponent_form (String d rest)) = false.
Proof.
  cbn [Js.exponent_form]. cbv zeta. unfold lacks. cbn [all_chars].
  rewrite all_chars_app. cbn [all_chars]. cbn [Ascii.eqb Bool.eqb negb andb].
  now rewrite !andb_false_r.
Qed.

Lemma append_cancel a x y : a +:+ x = a +:+ y -> x = y.
Proof.
  induction a as [|c a IH]; [now rewrite !append_nil|].
  rewrite !append_String. intros [= H]. auto.
Qed.

Lemma append_sep_inj sep a a' b b' :
  lacks sep a = true -> lacks sep a' = true ->
  a +:+ String sep b = a' +:+ String sep b' -> a = a' /\ b = b'.
Proof.
  intros Ha Ha' Heq.
  assert (Hs : a :: Js.split sep b = a' :: Js.split sep b')
    by (now rewrite <- !split_app, Heq).
  injection Hs as -> _. split; [reflexivity|].
  apply append_cancel in Heq. congruence.
Qed.

Lemma strip_zeros_inj a : forall b,
  Js.strip_zeros a = Js.strip_zeros b -> String.length a = String.length b -> a = b.
Proof.
  induction a as [|c r IH]; intros [|c' r'] Hs Hlen; try discriminate Hlen; [reflexivity|].
  cbn [String.length] in Hlen. cbn [Js.strip_zeros] in Hs. cbv zeta in Hs.
  destruct (N.eqb_spec (Js.code c) 48) as [Hc|Hc];
    destruct (N.eqb_spec (Js.code c') 48) as [Hc'|Hc']; cbn [andb] in Hs;
    destruct (String.eqb_spec (Js.strip_zeros r) "") as [Hr|Hr];
    destruct (String.eqb_spec (Js.strip_zeros r') "") as [Hr'|Hr'];
    try discriminate Hs;
    try (injection Hs as -> Hs; f_equal; apply IH; [exact Hs|lia]).
  all: f_equal; [|apply IH; [congruence|lia]].
  all: rewrite <- (char_of_code c), <- (char_of_code c'); congruence.
Qed.

Lemma exponent_form_inj d rest d' rest' :
  all_chars is_digit rest = true -> all_chars is_digit rest' = true ->
  Js.exponent_form (String d rest) = Js.exponent_form (String d' rest') ->
  String d rest = String d' rest'.
Proof.
  intros Hrest Hrest'. cbn [Js.exponent_form]. cbv zeta. intros [= -> Heq].
  f_equal.
  assert (Hfrac : forall r, all_chars is_digit r = true ->
            lacks "e" (if String.eqb (Js.strip_zeros r) "" then ""
                       else String "." (Js.strip_zeros r)) = true).
  { intros r Hr. destruct (String.eqb (Js.strip_zeros r) ""); [reflexivity|].
    unfold lacks. cbn [all_chars]. fold (lacks "e" (Js.strip_zeros r)).
    rewrite digits_lack; [reflexivity|reflexivity|now apply strip_zeros_all]. }
  rewrite !append_String, !append_nil in Heq.
  apply append_sep_inj in Heq as [Hx [= He]]; [|now apply Hfrac..].
  apply N_toString_inj, Nat2N.inj in He.
  apply strip_zeros_inj; [|exact He].
  destruct (String.eqb_spec (Js.strip_zeros rest) "") as [Hr|Hr];
    destruct (String.eqb_spec (Js.strip_zeros rest') "") as [Hr'|Hr'];
    congruence.
Qed.

Lemma Number_toString_inj z z' : Js.Number_toString z = Js.Number_toString z' -> z = z'.
Proof.
  unfold Js.Number_toString.
  destruct (Z.ltb_spec z (10 ^ 21)) as [_|Hz]; destruct (Z.ltb_spec z' (10 ^ 21)) as [_|Hz'].
  - apply decimal_inj.
  - destruct (decimal_large z' Hz') as (d & rest & -> & _). intros H.
    pose proof (exponent_form_has_e d rest) as He. rewrite <- H in He.
    rewrite decimal_lacks in He; [discriminate|reflexivity|discriminate].
  - destruct (decimal_large z Hz) as (d & rest & -> & _). intros H.
    pose proof (exponent_form_has_e d rest) as He. rewrite H in He.
    rewrite decimal_lacks in He; [discriminate|reflexivity|discriminate].
  - destruct (decimal_large z Hz) as (d & rest & Hd & _ & Hrest).
    destruct (decimal_large z' Hz') as (d' & rest' & Hd' & _ & Hrest').
    rewrite Hd, Hd'. intros H. apply exponent_form_inj in H; [|assumption..].
    apply decimal_inj. congruence.
Qed.

Lemma hex_char_spec d :
  (d < 16)%N -> is_hex (Js.hex_char d) = true /\ Js.digit_in 16 (Js.hex_char d) = Some d.
Proof.
  intros Hd.
  pose proof (N_forall_below
    (fun d => is_hex (Js.hex_char d)
              && match Js.digit_in 16 (Js.hex_char d) with Some x => (x =? d)%N | None => false end)
    16 eq_refl d Hd) as H.
  cbv beta in H. apply andb_true_iff in H as [H1 H2]. split; [exact H1|].
  destruct (Js.digit_in 16 (Js.hex_char d)); [|discriminate].
  apply N.eqb_eq in H2. congruence.
Qed.

Lemma code_div_mod_16 c :
  (Js.code c / 16 < 16)%N /\ (Js.code c mod 16 < 16)%N
  /\ (Js.code c / 16 * 16 + Js.code c mod 16 = Js.code c)%N.
Proof.
  pose proof (code_lt_256 c). pose proof (N.div_mod (Js.code c) 16).
  repeat split; [apply N.Div0.div_lt_upper_bound|apply N.mod_lt|]; lia.
Qed.

Lemma hex_encode_hex s : all_chars is_hex (Js.hex_encode s) = true.
Proof.
  induction s as [|c r IH]; [reflexivity|]. cbn [Js.hex_encode all_chars].
  destruct (code_div_mod_16 c) as (Hq & Hr & _).
  rewrite (proj1 (hex_char_spec _ Hq)), (proj1 (hex_char_spec _ Hr)). exact IH.
Qed.

Lemma hex_encode_lacks sep s : is_hex sep = false -> lacks sep (Js.hex_encode s) = true.
Proof.
  intros Hsep. apply all_chars_impl with (P := is_hex); [|apply hex_encode_hex].
  intros c Hc. destruct (Ascii.eqb_spec c sep) as [->|]; [congruence|reflexivity].
Qed.

Lemma hex_decode_encode s : Reference.hex_decode (Js.hex_encode s) = Some s.
Proof.
  induction s as [|c r IH]; [reflexivity|]. cbn [Js.hex_encode Reference.hex_decode].
  destruct (code_div_mod_16 c) as (Hq & Hr & Heq).
  rewrite (proj2 (hex_char_spec _ Hq)), (proj2 (hex_char_spec _ Hr)), IH, Heq, char_of_code.
  reflexivity.
Qed.

Lemma unbase64_b64_char n : (n < 64)%N -> Js.unbase64 (Js.b64_char n) = Some n.
Proof.
  intros Hn.
  pose proof (N_forall_below
    (fun n => match Js.unbase64 (Js.b64_char n) with Some x => (x =? n)%N | None => false end)
    64 eq_refl n Hn) as H.
  cbv beta in H. destruct (Js.unbase64 (Js.b64_char n)); [|discriminate].
  apply N.eqb_eq in H. congruence.
Qed.

Lemma string_ind3 (P : string -> Prop) :
  P "" ->
  (forall a, P (String a "")) ->
  (forall a b, P (String a (String b ""))) ->
  (forall a b c r, P r -> P (String a (String b (String c r)))) ->
  forall s, P s.
Proof.
  intros H0 H1 H2 H3 s.
  enough (H : P s /\ (forall a, P (String a s)) /\ (forall a b, P (String a (String b s))))
    by apply H.
  induction s as [|c r (IH0 & IH1 & IH2)]; auto.
Qed.

Lemma sextet_bounds (x y z : N) :
  (x < 256 -> y < 256 -> z < 256 ->
   x / 4 < 64 /\ x mod 4 * 16 + y / 16 < 64 /\ y mod 16 * 4 + z / 64 < 64
   /\ z mod 64 < 64 /\ x mod 4 * 16 < 64 /\ y mod 16 * 4 < 64)%N.
Proof. intros. rewrite !N.Div0.mod_eq. repeat split; lia. Qed.

Lemma sextet_join (x y z : N) :
  (x < 256 -> y < 256 -> z < 256 ->
   x / 4 * 4 + (x mod 4 * 16 + y / 16) / 16 = x
   /\ (x mod 4 * 16 + y / 16) mod 16 * 16 + (y mod 16 * 4 + z / 64) / 4 = y
   /\ (y mod 16 * 4 + z / 64) mod 4 * 64 + z mod 64 = z
   /\ x / 4 * 4 + (x mod 4 * 16) / 16 = x
   /\ (x mod 4 * 16 + y / 16) mod 16 * 16 + (y mod 16 * 4) / 4 = y)%N.
Proof. intros. rewrite !N.Div0.mod_eq. repeat split; lia. Qed.

Lemma base64_decode_encode s : Js.base64_decode (Js.base64_encode s) = s.
Proof.
  unfold Js.base64_decode. induction s as [|a|a b|a b c r IH] using string_ind3.
  - reflexivity.
  - destruct (sextet_bounds _ _ _ (code_lt_256 a) (code_lt_256 a) (code_lt_256 a))
      as (B0 & _ & _ & _ & B1 & _).
    destruct (sextet_join _ _ _ (code_lt_256 a) (code_lt_256 a) (code_lt_256 a))
      as (_ & _ & _ & J0 & _).
    cbn [Js.base64_encode Js.b64_sextets]. rewrite !unbase64_b64_char by assumption.
    cbn. rewrite J0, char_of_code. reflexivity.
  - destruct (sextet_bounds _ _ _ (code_lt_256 a) (code_lt_256 b) (code_lt_256 b))
      as (B0 & B1 & _ & _ & _ & B2).
    destruct (sextet_join _ _ _ (code_lt_256 a) (code_lt_256 b) (code_lt_256 b))
      as (J0 & _ & _ & _ & J1).
    cbn [Js.base64_encode Js.b64_sextets]. rewrite !unbase64_b64_char by assumption.
    cbn. rewrite J0, J1, !char_of_code. reflexivity.
  - destruct (sextet_bounds _ _ _ (code_lt_256 a) (code_lt_256 b) (code_lt_256 c))
      as (B0 & B1 & B2 & B3 & _ & _).
    destruct (sextet_join _ _ _ (code_lt_256 a) (code_lt_256 b) (code_lt_256 c))
      as (J0 & J1 & J2 & _ & _).
    cbn [Js.base64_encode Js.b64_sextets]. rewrite !unbase64_b64_char by assumption.
    cbn [Js.b64_bytes]. rewrite J0, J1, J2, !char_of_code, IH. reflexivity.
Qed.

Lemma timingSafeEqual_refl s : Js.timingSafeEqual s s = Normal true.
Proof. unfold Js.timingSafeEqual. now rewrite Nat.eqb_refl, String.eqb_refl. Qed.

(** Closes a goal [lacks sep s = true] for the text of a number or a hex
    string. *)
Ltac solve_lacks :=
  first [ assumption
        | apply Number_toString_lacks; [reflexivity|discriminate..]
        | apply decimal_lacks; [reflexivity|discriminate]
        | apply hex_encode_lacks; reflexivity ].

(** ** CSRF tokens *)

Section CsrfTokens.

Context (E : Auth.Env).

Lemma csrf_text_fields issued userId extra :
  Js.split ":" (csrf_text_with E issued userId extra)
  = Js.Number_toString userId :: Js.Number_toString issued
    :: Js.hex_encode
         (Auth.hmac_sha256 E (Auth.CSRF_SECRET E)
            (Js.Number_toString userId +:+ ":" +:+ Js.Number_toString issued))
    :: match extra with
       | Some x => Js.split ":" x
       | None => []
       end.
Proof.
  destruct extra as [x|]; cbn [csrf_text_with]; unfold csrf_text; cbv zeta;
    rewrite !append_assoc, !append_String, !append_nil;
    do 2 rewrite split_app by solve_lacks.
  - rewrite split_app by solve_lacks. reflexivity.
  - rewrite split_lacks by solve_lacks. reflexivity.
Qed.

(** Verification of a token issued at [issued] for [userId], with or without
    appended material, in terms of what the two number fields read back as. *)
Lemma verify_issued_parsed issued userId extra now userId' :
  Auth.verifyCsrfToken E now
    (Js.base64_encode (csrf_text_with E issued userId extra)) userId'
  = Normal
      (negb (Js.strict_neq (Js.parseInt (Js.Number_toString userId)) (Js.Num userId'))
       && negb (Js.gt (Js.sub (Js.Num now) (Js.parseInt (Js.Number_toString issued)))
                  (Js.Num (24 * 60 * 60 * 1000)))).
Proof.
  unfold Auth.verifyCsrfToken, Auth.verifyCsrfToken_try.
  rewrite base64_decode_encode.
  rewrite csrf_text_fields.
  cbn [nth_error Js.ToString].
  destruct (Js.strict_neq _ _); cbn [negb andb]; [reflexivity|].
  destruct (Js.gt _ _); cbn [negb]; [reflexivity|].
  cbn [Js.Buffer_from bind]. rewrite timingSafeEqual_refl. reflexivity.
Qed.

(** With both numbers below 10^21: the user must be the same and the age at
    most 24 hours. *)
Lemma verify_issued issued userId extra now userId' :
  (userId < 10 ^ 21)%Z -> (issued < 10 ^ 21)%Z ->
  Auth.verifyCsrfToken E now
    (Js.base64_encode (csrf_text_with E issued userId extra)) userId'
  = Normal ((userId =? userId')%Z && negb (now - issued >? 24 * 60 * 60 * 1000)%Z).
Proof.
  intros Hu Ht. rewrite verify_issued_parsed, !parseInt_Number_toString by assumption.
  cbn [Js.strict_neq Js.sub Js.gt]. now rewrite negb_involutive.
Qed.

(** Whatever the two numbers, an issued token is rejected once its time of
    issue is more than 24 hours behind the clock. *)
Lemma verify_issued_old issued userId extra now userId' :
  (now - issued > 24 * 60 * 60 * 1000)%Z ->
  Auth.verifyCsrfToken E now
    (Js.base64_encode (csrf_text_with E issued userId extra)) userId' = Normal false.
Proof.
  intros Hold. rewrite verify_issued_parsed. f_equal. apply andb_false_iff. right.
  apply negb_false_iff.
  destruct (Z.lt_ge_cases issued (10 ^ 21)) as [Ht|Ht].
  - rewrite parseInt_Number_toString by exact Ht. cbn [Js.sub Js.gt].
    destruct (Z.gtb_spec (now - issued) (24 * 60 * 60 * 1000)); [reflexivity|lia].
  - destruct (parseInt_Number_toString_large issued Ht) as (v & Hv & ->).
    cbn [Js.sub Js.gt].
    assert (Hc : (9 < 10 ^ 21)%Z) by reflexivity.
    destruct (Z.gtb_spec (now - v) (24 * 60 * 60 * 1000)); [reflexivity|lia].
Qed.

Lemma generateCsrfToken_decodes issued userId :
  Js.base64_decode (Auth.generateCsrfToken E issued userId) = csrf_text E issued userId.
Proof. unfold Auth.generateCsrfToken. cbv zeta. apply base64_decode_encode. Qed.

Lemma generateCsrfToken_with_none issued userId :
  Auth.generateCsrfToken E issued userId
  = Js.base64_encode (csrf_text_with E issued userId None).
Proof. reflexivity. Qed.

(** Whatever the token, [verifyCsrfToken] returns; what its body throws
    comes out as [false]. *)
Lemma verifyCsrfToken_returns now token userId :
  exists b, Auth.verifyCsrfToken E now token userId = Normal b
    /\ (forall e, Auth.verifyCsrfToken_try E now token userId = Throw e -> b = false).
Proof.
  unfold Auth.verifyCsrfToken.
  destruct (Auth.verifyCsrfToken_try E now token userId) as [b|e]; cbn [try_catch].
  - exists b. split; [reflexivity|discriminate].
  - exists false. split; [reflexivity|reflexivity].
Qed.

Lemma verifyCsrfToken_empty now userId : Auth.verifyCsrfToken E now "" userId = Normal false.
Proof. reflexivity. Qed.

Lemma verify_few_fields now token userId :
  (List.length (Js.split ":" (Js.base64_decode token)) < 3)%nat ->
  Auth.verifyCsrfToken E now token userId = Normal false.
Proof.
  intros Hlen. unfold Auth.verifyCsrfToken, Auth.verifyCsrfToken_try. cbv zeta.
  assert (Hsig : nth_error (Js.split ":" (Js.base64_decode token)) 2 = None)
    by (apply nth_error_None; lia).
  rewrite Hsig.
  destruct (Js.strict_neq _ _); [reflexivity|].
  destruct (Js.gt _ _); reflexivity.
Qed.

Lemma verify_old_timestamp now token userId ts :
  Js.parseInt (Js.ToString (nth_error (Js.split ":" (Js.base64_decode token)) 1)) = Js.Num ts ->
  (now - ts > 24 * 60 * 60 * 1000)%Z ->
  Auth.verifyCsrfToken E now token userId = Normal false.
Proof.
  intros Hts Hold. unfold Auth.verifyCsrfToken, Auth.verifyCsrfToken_try. cbv zeta.
  rewrite Hts.
  destruct (Js.strict_neq _ _); [reflexivity|].
  cbn [Js.sub Js.gt].
  destruct (Z.gtb_spec (now - ts) (24 * 60 * 60 * 1000)) as [_|Hle]; [reflexivity|lia].
Qed.

Lemma verify_non_numeric_user now token userId :
  Js.parseInt (Js.ToString (nth_error (Js.split ":" (Js.base64_decode token)) 0)) = Js.NaN ->
  Auth.verifyCsrfToken E now token userId = Normal false.
Proof.
  intros Hnan. unfold Auth.verifyCsrfToken, Auth.verifyCsrfToken_try. cbv zeta.
  rewrite Hnan. reflexivity.
Qed.

Lemma verify_signature_length now token userId sg :
  nth_error (csrf_fields token) 2 = Some sg ->
  String.length sg
  <> String.length
       (Js.hex_encode
          (Auth.hmac_sha256 E (Auth.CSRF_SECRET E)
             (Js.ToString (nth_error (csrf_fields token) 0) +:+ ":"
              +:+ Js.ToString (nth_error (csrf_fields token) 1)))) ->
  Auth.verifyCsrfToken E now token userId = Normal false.
Proof.
  unfold csrf_fields. intros Hsg Hlen.
  unfold Auth.verifyCsrfToken, Auth.verifyCsrfToken_try. cbv zeta.
  rewrite Hsg.
  destruct (Js.strict_neq _ _); [reflexivity|].
  destruct (Js.gt _ _); [reflexivity|].
  cbn [Js.Buffer_from bind]. unfold Js.timingSafeEqual.
  apply Nat.eqb_neq in Hlen. rewrite Hlen. reflexivity.
Qed.

Lemma verify_first_three now token token' userId :
  firstn 3 (csrf_fields token) = firstn 3 (csrf_fields token') ->
  Auth.verifyCsrfToken E now token userId = Auth.verifyCsrfToken E now token' userId.
Proof.
  unfold csrf_fields. intros Hsame.
  assert (Hnth : forall i, (i < 3)%nat ->
            nth_error (Js.split ":" (Js.base64_decode token)) i
            = nth_error (Js.split ":" (Js.base64_decode token')) i).
  { intros i Hi.
    assert (Hcut : forall l : list string, nth_error l i = nth_error (firstn 3 l) i).
    { intros l. rewrite nth_error_firstn. destruct (Nat.ltb_spec i 3); [reflexivity|lia]. }
    now rewrite (Hcut (Js.split ":" (Js.base64_decode token))), Hsame, <- Hcut. }
  unfold Auth.verifyCsrfToken, Auth.verifyCsrfToken_try. cbv zeta.
  rewrite (Hnth 0%nat), (Hnth 1%nat), (Hnth 2%nat) by lia. reflexivity.
Qed.

Lemma b64_sextets_skips pre c post :
  Js.unbase64 c = None -> c <> "="%char ->
  Js.b64_sextets (pre +:+ String c post) = Js.b64_sextets (pre +:+ post).
Proof.
  intros Hc Heq. induction pre as [|a pre IH].
  - rewrite !append_nil. cbn [Js.b64_sextets]. rewrite Hc.
    destruct (N.eqb_spec (Js.code c) 61) as [H61|_]; [|reflexivity].
    exfalso. apply Heq. rewrite <- (char_of_code c), H61. reflexivity.
  - rewrite !append_String. cbn [Js.b64_sextets]. rewrite IH. reflexivity.
Qed.

Lemma verify_skips_character now pre c post userId :
  Js.unbase64 c = None -> c <> "="%char ->
  Auth.verifyCsrfToken E now (pre +:+ String c post) userId
  = Auth.verifyCsrfToken E now (pre +:+ post) userId.
Proof.
  intros Hc Heq. unfold Auth.verifyCsrfToken, Auth.verifyCsrfToken_try, Js.base64_decode.
  now rewrite (b64_sextets_skips pre c post Hc Heq).
Qed.

Lemma csrf_fields_extra issued userId extra :
  (3 < List.length (csrf_fields (Js.base64_encode (csrf_text_with E issued userId (Some extra)))))%nat.
Proof.
  unfold csrf_fields. rewrite base64_decode_encode, csrf_text_fields.
  pose proof (split_nonempty ":" extra) as Hne.
  destruct (Js.split ":" extra); [congruence|cbn [List.length]; lia].
Qed.

End CsrfTokens.

(** ** Session tokens *)

Lemma verifyToken_returns E now token :
  exists r, Auth.verifyToken E now token = Normal r
    /\ (forall e, Auth.jwt_verify E token (Auth.JWT_SECRET E) now = Throw e -> r = None).
Proof.
  unfold Auth.verifyToken.
  destruct (Auth.jwt_verify E token (Auth.JWT_SECRET E) now) as [d|e]; cbn [bind try_catch].
  - exists (Some d). split; [reflexivity|discriminate].
  - exists None. split; reflexivity.
Qed.

Section UnderContract.

Context (E : Auth.Env) (HE : Auth.jwt_contract E).

Lemma verifyToken_generateToken now now' user :
  ((now' / 1000 < now / 1000 + Auth.expiresIn_7d)%Z ->
     Auth.verifyToken E now' (Auth.generateToken E now user)
     = Normal (Some {| Auth.claims :=
                         {| Auth.id := Auth.user_id user;
                            Auth.email := Auth.user_email user;
                            Auth.username := Auth.user_username user;
                            Auth.is_host := match Auth.user_is_host user with
                                            | Some b => b || false
                                            | None => false
                                            end |};
                       Auth.iat := (now / 1000)%Z;
                       Auth.exp := (now / 1000 + Auth.expiresIn_7d)%Z |}))
  /\ ((now / 1000 + Auth.expiresIn_7d <= now' / 1000)%Z ->
     Auth.verifyToken E now' (Auth.generateToken E now user) = Normal None).
Proof.
  unfold Auth.verifyToken, Auth.generateToken.
  match goal with
  | |- context [Auth.jwt_sign E ?p ?s ?x ?n] =>
      destruct (HE p s x n now') as [Hbefore Hafter]
  end.
  split; intros H.
  - rewrite (Hbefore H). reflexivity.
  - destruct (Hafter H) as [e ->]. reflexivity.
Qed.

End UnderContract.

(** The reference environment meets the contract. *)

Lemma reference_fields p secret issued expires :
  Js.split "." (Reference.body p issued expires +:+ "."
                +:+ Js.hex_encode (Reference.mac secret (Reference.body p issued expires)))
  = [ Js.decimal (Auth.id p); Js.hex_encode (Auth.email p);
      Js.hex_encode (Auth.username p); (if Auth.is_host p then "1" else "0");
      Js.decimal issued; Js.decimal expires;
      Js.hex_encode (Reference.mac secret (Reference.body p issued expires)) ].
Proof.
  assert (Hf : lacks "." (if Auth.is_host p then "1" else "0") = true)
    by (destruct (Auth.is_host p); reflexivity).
  assert (Hsg : lacks "." (Js.hex_encode
                             (Reference.mac secret (Reference.body p issued expires))) = true)
    by solve_lacks.
  revert Hsg.
  generalize (Js.hex_encode (Reference.mac secret (Reference.body p issued expires))).
  intros sg Hsg. unfold Reference.body.
  rewrite !append_assoc, !append_String, !append_nil.
  do 6 rewrite split_app by solve_lacks.
  rewrite split_lacks by solve_lacks. reflexivity.
Qed.

Lemma reference_verify_sign p secret expiresIn now now' :
  Reference.verify (Reference.sign p secret expiresIn now) secret now'
  = if (now' / 1000 >=? now / 1000 + expiresIn)%Z
    then Throw (TokenExpiredError "jwt expired")
    else Normal {| Auth.claims := p;
                   Auth.iat := (now / 1000)%Z;
                   Auth.exp := (now / 1000 + expiresIn)%Z |}.
Proof.
  unfold Reference.verify, Reference.sign. cbv zeta.
  rewrite reference_fields.
  change (Js.decimal (Auth.id p) +:+ "." +:+ Js.hex_encode (Auth.email p)
          +:+ "." +:+ Js.hex_encode (Auth.username p)
          +:+ "." +:+ (if Auth.is_host p then "1" else "0")
          +:+ "." +:+ Js.decimal (now / 1000)
          +:+ "." +:+ Js.decimal (now / 1000 + expiresIn))
    with (Reference.body p (now / 1000) (now / 1000 + expiresIn)).
  rewrite String.eqb_refl. cbn [negb].
  rewrite !parseInt_decimal, !hex_decode_encode.
  destruct (now' / 1000 >=? now / 1000 + expiresIn)%Z; [reflexivity|].
  destruct p as [i e u h]. cbn [Auth.id Auth.email Auth.username Auth.is_host].
  destruct h; reflexivity.
Qed.

Lemma reference_contract : Auth.jwt_contract Reference.env.
Proof.
  intros p secret expiresIn now now'. cbv zeta.
  cbn [Auth.jwt_sign Auth.jwt_verify Reference.env].
  rewrite reference_verify_sign. split; intros H.
  - destruct (Z.geb_spec (now' / 1000) (now / 1000 + expiresIn)); [lia|reflexivity].
  - destruct (Z.geb_spec (now' / 1000) (now / 1000 + expiresIn)); [eauto|lia].
Qed.

(** ** Requests *)

Lemma truthy_nonempty v : v <> "" -> Js.truthy (Some v) = true.
Proof. intros Hv. cbn. destruct (String.eqb_spec v ""); [congruence|reflexivity]. Qed.

Lemma middleware_requires_header request :
  Js.startsWith (pathname request) "/api/" = true ->
  Js.truthy (Middleware.session_token request) = true ->
  Js.includes Csrf.MUTATIONS (Js.toUpperCase (method request)) = true ->
  Middleware.some_path Middleware.csrfExemptPaths (pathname request) = false ->
  Js.truthy (headers_get request "x-csrf-token") = false ->
  Middleware.middleware request = Middleware.json false "CSRF token required" 403.
Proof.
  intros Hapi Htoken Hmut Hexempt Hheader.
  unfold Middleware.middleware. cbv zeta.
  change (Js.includes ["POST"; "PUT"; "DELETE"; "PATCH"] (Js.toUpperCase (method request)))
    with (Js.includes Csrf.MUTATIONS (Js.toUpperCase (method request))).
  rewrite Hapi, Htoken, Hmut, Hexempt, Hheader.
  cbn [negb andb]. rewrite !andb_false_r. reflexivity.
Qed.

(** ** The rate limiter *)

Lemma checkRateLimit_cases identifier config now (store : gmap string RateLimit.RateLimitEntry) :
  let key := RateLimit.key_of identifier config in
  let out := RateLimit.checkRateLimit identifier config now store in
  (* a fresh window *)
  ((store !! key = None \/ exists e, store !! key = Some e /\ (now > RateLimit.resetTime e)%Z)
   /\ RateLimit.success (fst out) = true
   /\ RateLimit.remaining (fst out) = (RateLimit.maxRequests config - 1)%Z
   /\ snd out = <[key := {| RateLimit.count := 1;
                            RateLimit.resetTime := (now + RateLimit.windowSeconds config * 1000)%Z |}]> store)
  (* denied *)
  \/ (exists e, store !! key = Some e /\ (now <= RateLimit.resetTime e)%Z
        /\ (RateLimit.maxRequests config <= RateLimit.count e)%Z
        /\ RateLimit.success (fst out) = false
        /\ RateLimit.remaining (fst out) = 0%Z
        /\ RateLimit.resetIn (fst out) = Js.ceil_div (RateLimit.resetTime e - now) 1000
        /\ snd out = store)
  (* counted *)
  \/ (exists e, store !! key = Some e /\ (now <= RateLimit.resetTime e)%Z
        /\ (RateLimit.count e < RateLimit.maxRequests config)%Z
        /\ RateLimit.success (fst out) = true
        /\ RateLimit.remaining (fst out)
           = (RateLimit.maxRequests config - (RateLimit.count e + 1))%Z
        /\ snd out = <[key := {| RateLimit.count := (RateLimit.count e + 1)%Z;
                                 RateLimit.resetTime := RateLimit.resetTime e |}]> store).
Proof.
  cbv zeta. unfold RateLimit.checkRateLimit. cbv zeta.
  destruct (store !! RateLimit.key_of identifier config) as [e|] eqn:Hk.
  - destruct (Z.gtb_spec now (RateLimit.resetTime e)) as [Hexp|Hin].
    + left. cbn [fst snd RateLimit.success RateLimit.remaining]. split; [right; exists e; split; [reflexivity|lia]|auto].
    + destruct (Z.geb_spec (RateLimit.count e) (RateLimit.maxRequests config)) as [Hfull|Hroom].
      * right. left. exists e. cbn. repeat split; auto; lia.
      * right. right. exists e. cbn. repeat split; auto; lia.
  - left. cbn [fst snd RateLimit.success RateLimit.remaining]. auto.
Qed.

Lemma checkRateLimit_fresh identifier config now (store : gmap string RateLimit.RateLimitEntry) :
  (store !! RateLimit.key_of identifier config = None
   \/ exists e, store !! RateLimit.key_of identifier config = Some e
                /\ (now > RateLimit.resetTime e)%Z) ->
  RateLimit.checkRateLimit identifier config now store
  = ({| RateLimit.success := true;
        RateLimit.remaining := (RateLimit.maxRequests config - 1)%Z;
        RateLimit.resetIn := RateLimit.windowSeconds config;
        RateLimit.limit := RateLimit.maxRequests config |},
     <[RateLimit.key_of identifier config :=
         {| RateLimit.count := 1;
            RateLimit.resetTime := (now + RateLimit.windowSeconds config * 1000)%Z |}]> store).
Proof.
  unfold RateLimit.checkRateLimit. cbv zeta. intros [->|(e & -> & Hexp)]; [reflexivity|].
  destruct (Z.gtb_spec now (RateLimit.resetTime e)); [reflexivity|lia].
Qed.

Lemma checkRateLimit_counted identifier config now (store : gmap string RateLimit.RateLimitEntry) e :
  store !! RateLimit.key_of identifier config = Some e ->
  (now <= RateLimit.resetTime e)%Z ->
  (RateLimit.count e < RateLimit.maxRequests config)%Z ->
  RateLimit.checkRateLimit identifier config now store
  = ({| RateLimit.success := true;
        RateLimit.remaining := (RateLimit.maxRequests config - (RateLimit.count e + 1))%Z;
        RateLimit.resetIn := Js.ceil_div (RateLimit.resetTime e - now) 1000;
        RateLimit.limit := RateLimit.maxRequests config |},
     <[RateLimit.key_of identifier config :=
         {| RateLimit.count := (RateLimit.count e + 1)%Z;
            RateLimit.resetTime := RateLimit.resetTime e |}]> store).
Proof.
  unfold RateLimit.checkRateLimit. cbv zeta. intros -> Hin Hroom.
  destruct (Z.gtb_spec now (RateLimit.resetTime e)); [lia|].
  destruct (Z.geb_spec (RateLimit.count e) (RateLimit.maxRequests config)); [lia|reflexivity].
Qed.

Lemma checkRateLimit_denied identifier config now (store : gmap string RateLimit.RateLimitEntry) e :
  store !! RateLimit.key_of identifier config = Some e ->
  (now <= RateLimit.resetTime e)%Z ->
  (RateLimit.maxRequests config <= RateLimit.count e)%Z ->
  RateLimit.checkRateLimit identifier config now store
  = ({| RateLimit.success := false;
        RateLimit.remaining := 0;
        RateLimit.resetIn := Js.ceil_div (RateLimit.resetTime e - now) 1000;
        RateLimit.limit := RateLimit.maxRequests config |},
     store).
Proof.
  unfold RateLimit.checkRateLimit. cbv zeta. intros -> Hin Hfull.
  destruct (Z.gtb_spec now (RateLimit.resetTime e)); [lia|].
  destruct (Z.geb_spec (RateLimit.count e) (RateLimit.maxRequests config)); [reflexivity|lia].
Qed.

Lemma ceil_div_le a k : (a <= k * 1000)%Z -> (Js.ceil_div a 1000 <= k)%Z.
Proof. unfold Js.ceil_div. intros H. lia. Qed.

Lemma check_keeps_bound lim identifier config now store :
  RateLimit.maxRequests config = lim (RateLimit.key_of identifier config) ->
  count_bounded lim store ->
  count_bounded lim (snd (RateLimit.checkRateLimit identifier config now store)).
Proof.
  intros Hlim Hinv k e.
  destruct (checkRateLimit_cases identifier config now store)
    as [(_ & _ & _ & ->)|[(e0 & _ & _ & _ & _ & _ & _ & ->)|(e0 & He0 & _ & Hroom & _ & _ & ->)]];
    cbv zeta in *.
  - rewrite lookup_insert. case_decide as Hk.
    + intros [= <-]. subst k. cbn. lia.
    + apply Hinv.
  - apply Hinv.
  - rewrite lookup_insert. case_decide as Hk.
    + intros [= <-]. subst k. cbn. lia.
    + apply Hinv.
Qed.

Lemma cleanup_keeps_bound lim now store :
  count_bounded lim store -> count_bounded lim (RateLimit.cleanup now store).
Proof.
  intros Hinv k e. unfold RateLimit.cleanup.
  rewrite map_lookup_filter_Some. intros [Hk _]. exact (Hinv k e Hk).
Qed.

Lemma steps_keep_bound lim evs : forall store,
  RateLimit.same_limit lim evs ->
  count_bounded lim store ->
  count_bounded lim (fold_left RateLimit.step evs store).
Proof.
  induction evs as [|ev evs IH]; intros store Hevs Hinv; [exact Hinv|].
  inversion Hevs as [|? ? Hev Hrest]; subst. cbn [fold_left]. apply IH; [exact Hrest|].
  destruct ev as [identifier config now|now]; cbn [RateLimit.step].
  - now apply check_keeps_bound.
  - now apply cleanup_keeps_bound.
Qed.

(** * The claims *)

(** C1, as the code has it. For a user id and a clock that are safe
    integers, the token issued for the user verifies for that user at the
    clock of issue, and fails for every other user at any clock. *)
Theorem csrf_token_bound_to_user (E : Auth.Env) (now userId : Z) :
  Js.safe_integer userId -> Js.safe_integer now ->
  Auth.verifyCsrfToken E now (Auth.generateCsrfToken E now userId) userId = Normal true
  /\ (forall now' userId', userId' <> userId ->
        Auth.verifyCsrfToken E now' (Auth.generateCsrfToken E now userId) userId'
        = Normal false).
Proof.
  intros Hu%safe_integer_plain Hn%safe_integer_plain.
  rewrite generateCsrfToken_with_none. split.
  - rewrite verify_issued, Z.eqb_refl, Z.sub_diag by assumption. reflexivity.
  - intros now' userId' Hother. rewrite verify_issued by assumption.
    destruct (Z.eqb_spec userId userId'); [congruence|reflexivity].
Qed.

Lemma csrf_token_bound_to_user_witness :
  Js.safe_integer 7 /\ Js.safe_integer 1000
  /\ Auth.verifyCsrfToken Reference.env 1000 (Auth.generateCsrfToken Reference.env 1000 7) 7
     = Normal true
  /\ Auth.verifyCsrfToken Reference.env 2000 (Auth.generateCsrfToken Reference.env 1000 7) 8
     = Normal false.
Proof.
  assert (H7 : Js.safe_integer 7) by (split; vm_compute; discriminate).
  assert (H1000 : Js.safe_integer 1000) by (split; vm_compute; discriminate).
  split; [exact H7|]. split; [exact H1000|]. split.
  - exact (proj1 (csrf_token_bound_to_user Reference.env 1000 7 H7 H1000)).
  - apply (proj2 (csrf_token_bound_to_user Reference.env 1000 7 H7 H1000) 2000%Z 8%Z). lia.
Defined.

(** C1 as stated fails from 10^21 on, where [`${userId}`] is written in
    exponent notation: the token issued for user 10^21 holds the user field
    [1e+21], which reads back as 1. The token is rejected for the user it
    was issued to, at the very clock of issue, and accepted for user 1. *)
Lemma csrf_token_exponent_notation :
  (let token := Auth.generateCsrfToken Reference.env 0 (10 ^ 21) in
   Js.Number_toString (10 ^ 21) = "1e+21"
   /\ Js.parseInt "1e+21" = Js.Num 1
   /\ csrf_fields token = ["1e+21"; "0"; "637372662d7365637265747c31652b32313a30"]
   /\ Auth.verifyCsrfToken Reference.env 0 token (10 ^ 21) = Normal false
   /\ Auth.verifyCsrfToken Reference.env 0 token 1 = Normal true)
  /\ ~ (forall (E : Auth.Env) (now userId : Z),
          Auth.verifyCsrfToken E now (Auth.generateCsrfToken E now userId) userId
          = Normal true).
Proof.
  assert (Hfalse : Auth.verifyCsrfToken Reference.env 0
                     (Auth.generateCsrfToken Reference.env 0 (10 ^ 21)) (10 ^ 21)
                   = Normal false) by (vm_compute; reflexivity).
  split; [vm_compute; auto 6|].
  intros Hclaim. rewrite (Hclaim Reference.env 0%Z (10 ^ 21)%Z) in Hfalse. discriminate Hfalse.
Qed.

(** C2, as the code has it. With fewer than three colon-delimited fields a
    token is rejected. Fields after the third are not looked at: two tokens
    that agree on their first three fields get the same verdict, and so a
    token from [generateCsrfToken] with a colon and any suffix appended to
    its text has more than three fields and is accepted, for its user and
    within its 24 hours. *)
Theorem csrf_field_count (E : Auth.Env) (now : Z) :
  (forall token userId,
      (List.length (csrf_fields token) < 3)%nat ->
      Auth.verifyCsrfToken E now token userId = Normal false)
  /\ (forall token token' userId,
        firstn 3 (csrf_fields token) = firstn 3 (csrf_fields token') ->
        Auth.verifyCsrfToken E now token userId = Auth.verifyCsrfToken E now token' userId)
  /\ (forall issued userId suffix,
        Js.safe_integer userId -> Js.safe_integer issued ->
        (now - issued <= 24 * 60 * 60 * 1000)%Z ->
        let token :=
          Js.base64_encode
            (Js.base64_decode (Auth.generateCsrfToken E issued userId) +:+ ":" +:+ suffix) in
        (3 < List.length (csrf_fields token))%nat
        /\ Auth.verifyCsrfToken E now token userId = Normal true).
Proof.
  split; [|split].
  - intros token userId. apply verify_few_fields.
  - intros token token' userId. apply verify_first_three.
  - intros issued userId suffix Hu%safe_integer_plain Ht%safe_integer_plain Hfresh token.
    subst token. rewrite generateCsrfToken_decodes.
    change (csrf_text E issued userId +:+ ":" +:+ suffix)
      with (csrf_text_with E issued userId (Some suffix)).
    split.
    + apply csrf_fields_extra.
    + rewrite verify_issued, Z.eqb_refl by assumption.
      destruct (Z.gtb_spec (now - issued) (24 * 60 * 60 * 1000)); [lia|reflexivity].
Qed.

Lemma csrf_field_count_witness :
  (List.length (csrf_fields "NQ==") < 3)%nat
  /\ Auth.verifyCsrfToken Reference.env 1000 "NQ==" 5 = Normal false.
Proof.
  assert (Hfew : (List.length (csrf_fields "NQ==") < 3)%nat) by (vm_compute; lia).
  split; [exact Hfew|].
  exact (proj1 (csrf_field_count Reference.env 1000) "NQ==" 5%Z Hfew).
Defined.

(** C2 as stated fails, whatever the keyed hash: the token issued for user
    7 at clock 0, with [":x"] appended to its text, has four fields and
    verifies. With the reference environment the text is the one shown. *)
Lemma csrf_extra_field_accepted :
  (let token := Js.base64_encode (Js.base64_decode Reference.csrf +:+ ":x") in
   Js.base64_decode token = "7:0:637372662d7365637265747c373a30:x"
   /\ csrf_fields token = ["7"; "0"; "637372662d7365637265747c373a30"; "x"]
   /\ Auth.verifyCsrfToken Reference.env 1000 token 7 = Normal true)
  /\ ~ (exists E : Auth.Env,
          forall now token userId,
            List.length (csrf_fields token) <> 3%nat ->
            Auth.verifyCsrfToken E now token userId = Normal false).
Proof.
  split; [vm_compute; auto|].
  intros [E Hclaim].
  specialize (Hclaim 0%Z (Js.base64_encode (csrf_text_with E 0 7 (Some "x"))) 7%Z).
  rewrite verify_issued in Hclaim by reflexivity.
  assert (Hlen : (3 < List.length
                        (csrf_fields (Js.base64_encode (csrf_text_with E 0 7 (Some "x")))))%nat)
    by apply csrf_fields_extra.
  specialize (Hclaim ltac:(lia)). discriminate Hclaim.
Qed.

(** C3. With [maxRequests = 5] and [windowSeconds = 900], from a store where
    the key is absent or its window is over at the first call: five calls
    within the window succeed with [remaining] 4, 3, 2, 1, 0; a sixth call
    within the window is denied with [remaining = 0] and [resetIn <= 900];
    and a call made after the stored reset time succeeds with
    [remaining = 4]. *)
Theorem login_window_scenario (identifier : string) (pfx : option string)
    (store : gmap string RateLimit.RateLimitEntry) (t1 t2 t3 t4 t5 t6 t7 : Z) :
  let config :=
    {| RateLimit.maxRequests := 5; RateLimit.windowSeconds := 900; RateLimit.prefix := pfx |} in
  let key := RateLimit.key_of identifier config in
  (store !! key = None \/ exists e, store !! key = Some e /\ (t1 > RateLimit.resetTime e)%Z) ->
  Forall (fun t => t1 <= t <= t1 + 900 * 1000)%Z [t2; t3; t4; t5; t6] ->
  (t7 > t1 + 900 * 1000)%Z ->
  exists r1 r2 r3 r4 r5 r6 store6,
    checkRateLimit_at identifier config [t1; t2; t3; t4; t5; t6] store
    = ([r1; r2; r3; r4; r5; r6], store6)
    /\ map RateLimit.success [r1; r2; r3; r4; r5; r6] = [true; true; true; true; true; false]
    /\ map RateLimit.remaining [r1; r2; r3; r4; r5; r6] = [4; 3; 2; 1; 0; 0]%Z
    /\ (RateLimit.resetIn r6 <= 900)%Z
    /\ (exists e, store6 !! key = Some e /\ RateLimit.resetTime e = (t1 + 900 * 1000)%Z)
    /\ RateLimit.success (fst (RateLimit.checkRateLimit identifier config t7 store6)) = true
    /\ RateLimit.remaining (fst (RateLimit.checkRateLimit identifier config t7 store6)) = 4%Z.
Proof.
  intros config key Hstart Hin Hafter.
  repeat match goal with
         | H : Forall _ (_ :: _) |- _ => inversion H; subst; clear H
         | H : Forall _ [] |- _ => clear H
         end.
  cbn [checkRateLimit_at].
  rewrite (checkRateLimit_fresh identifier config t1 store Hstart).
  repeat (erewrite checkRateLimit_counted;
          [|apply lookup_insert_eq|cbn; lia|cbn; lia]).
  erewrite checkRateLimit_denied; [|apply lookup_insert_eq|cbn; lia|cbn; lia].
  do 7 eexists. split; [reflexivity|].
  cbn [map RateLimit.success RateLimit.remaining RateLimit.resetIn RateLimit.count
       RateLimit.resetTime RateLimit.maxRequests RateLimit.windowSeconds config].
  split; [reflexivity|]. split; [reflexivity|].
  split; [apply ceil_div_le; lia|].
  split; [eexists; split; [apply lookup_insert_eq|reflexivity]|].
  erewrite checkRateLimit_fresh; [split; reflexivity|].
  right. eexists. split; [apply lookup_insert_eq|cbn; lia].
Qed.

Lemma login_window_scenario_witness :
  (∅ : gmap string RateLimit.RateLimitEntry)
    !! RateLimit.key_of Reference.client RateLimit.loginRateLimit = None
  /\ exists r1 r2 r3 r4 r5 r6 store6,
    checkRateLimit_at Reference.client RateLimit.loginRateLimit
      [0; 1000; 2000; 3000; 4000; 900000]%Z ∅
    = ([r1; r2; r3; r4; r5; r6], store6)
    /\ map RateLimit.success [r1; r2; r3; r4; r5; r6] = [true; true; true; true; true; false]
    /\ map RateLimit.remaining [r1; r2; r3; r4; r5; r6] = [4; 3; 2; 1; 0; 0]%Z
    /\ (RateLimit.resetIn r6 <= 900)%Z
    /\ (exists e, store6 !! RateLimit.key_of Reference.client RateLimit.loginRateLimit = Some e
                  /\ RateLimit.resetTime e = (0 + 900 * 1000)%Z)
    /\ RateLimit.success
         (fst (RateLimit.checkRateLimit Reference.client RateLimit.loginRateLimit 900001 store6))
       = true
    /\ RateLimit.remaining
         (fst (RateLimit.checkRateLimit Reference.client RateLimit.loginRateLimit 900001 store6))
       = 4%Z.
Proof.
  split; [apply lookup_empty|].
  apply (login_window_scenario Reference.client (Some "login") ∅ 0 1000 2000 3000 4000 900000 900001).
  - left. apply lookup_empty.
  - repeat constructor; lia.
  - lia.
Defined.

(** C4. A token whose timestamp field is more than 24 hours behind the clock
    is rejected, whatever its user id and signature; in particular a token
    issued by [generateCsrfToken] for the very user who presents it. *)
Theorem csrf_token_expires (E : Auth.Env) (now : Z) :
  (forall token userId ts,
      Js.parseInt (Js.ToString (nth_error (csrf_fields token) 1)) = Js.Num ts ->
      (now - ts > 24 * 60 * 60 * 1000)%Z ->
      Auth.verifyCsrfToken E now token userId = Normal false)
  /\ (forall issued userId,
        (now - issued > 24 * 60 * 60 * 1000)%Z ->
        Auth.verifyCsrfToken E now (Auth.generateCsrfToken E issued userId) userId
        = Normal false).
Proof.
  split.
  - intros token userId ts. apply verify_old_timestamp.
  - intros issued userId Hold. rewrite generateCsrfToken_with_none.
    now apply verify_issued_old.
Qed.

Lemma csrf_token_expires_witness :
  Auth.verifyCsrfToken Reference.env 86400000 Reference.csrf 7 = Normal true
  /\ Auth.verifyCsrfToken Reference.env 86400001 Reference.csrf 7 = Normal false.
Proof.
  split; [vm_compute; reflexivity|].
  apply (proj2 (csrf_token_expires Reference.env 86400001) 0%Z 7%Z). lia.
Defined.

(** C5. Under the contract of [jsonwebtoken]: a token from [generateToken],
    verified while the clock in seconds is below issue time plus seven days,
    yields a payload with the id, email and username of the identity; from
    that time on [verifyToken] returns [null]. *)
Theorem session_token_roundtrip (E : Auth.Env) (user : Auth.User) (now now' : Z) :
  Auth.jwt_contract E ->
  ((now' / 1000 < now / 1000 + 7 * 24 * 60 * 60)%Z ->
     exists decoded,
       Auth.verifyToken E now' (Auth.generateToken E now user) = Normal (Some decoded)
       /\ Auth.id (Auth.claims decoded) = Auth.user_id user
       /\ Auth.email (Auth.claims decoded) = Auth.user_email user
       /\ Auth.username (Auth.claims decoded) = Auth.user_username user)
  /\ ((now / 1000 + 7 * 24 * 60 * 60 <= now' / 1000)%Z ->
        Auth.verifyToken E now' (Auth.generateToken E now user) = Normal None).
Proof.
  intros HE. destruct (verifyToken_generateToken E HE now now' user) as [Hbefore Hafter].
  split.
  - intros H. eexists. split; [apply Hbefore; exact H|]. cbn. auto.
  - exact Hafter.
Qed.

Lemma session_token_roundtrip_witness :
  Auth.jwt_contract Reference.env
  /\ (exists decoded,
        Auth.verifyToken Reference.env 604799999 (Auth.generateToken Reference.env 0 Reference.alice)
        = Normal (Some decoded)
        /\ Auth.id (Auth.claims decoded) = 7%Z
        /\ Auth.email (Auth.claims decoded) = "alice@example.com"
        /\ Auth.username (Auth.claims decoded) = "alice")
  /\ Auth.verifyToken Reference.env 604800000 (Auth.generateToken Reference.env 0 Reference.alice)
     = Normal None.
Proof.
  split; [exact reference_contract|]. split.
  - apply (proj1 (session_token_roundtrip Reference.env Reference.alice 0 604799999
                    reference_contract)).
    vm_compute. reflexivity.
  - apply (proj2 (session_token_roundtrip Reference.env Reference.alice 0 604800000
                    reference_contract)).
    vm_compute. discriminate.
Defined.

(** C6, as the code has it. For a mutation request of an authenticated user,
    [validateCsrf] accepts a token that verifies for the user's id and is
    carried only by the [csrf_token] cookie, answers "CSRF token missing"
    when neither carrier holds a token, and "Invalid CSRF token" when the
    token it finds does not verify. The middleware, which runs before the
    route handlers, reads the [X-CSRF-Token] header only: on a mutation to a
    non-exempt [/api/] path that carries a session token, a request without
    that header is answered 403 "CSRF token required", whatever the
    [csrf_token] cookie holds. *)
Theorem mutation_guard_carriers (E : Auth.Env) (now : Z) (request : Request)
    (user : Auth.JwtPayload) :
  Js.includes Csrf.MUTATIONS (Js.toUpperCase (method request)) = true ->
  Auth.getUserFromRequest E now request = Normal (Some user) ->
  (forall t,
      headers_get request "x-csrf-token" = None ->
      cookies_get request "csrf_token" = Some t ->
      Auth.verifyCsrfToken E now t (Auth.id (Auth.claims user)) = Normal true ->
      Csrf.validateCsrf E now request = Normal None)
  /\ (headers_get request "x-csrf-token" = None ->
      cookies_get request "csrf_token" = None ->
      Csrf.validateCsrf E now request
      = Normal (Some (Csrf.errorResponse "CSRF token missing" 403)))
  /\ (forall t,
        Js.or_else (headers_get request "x-csrf-token") (cookies_get request "csrf_token")
        = Some t ->
        t <> "" ->
        Auth.verifyCsrfToken E now t (Auth.id (Auth.claims user)) = Normal false ->
        Csrf.validateCsrf E now request
        = Normal (Some (Csrf.errorResponse "Invalid CSRF token" 403)))
  /\ (Js.startsWith (pathname request) "/api/" = true ->
      Js.truthy (Middleware.session_token request) = true ->
      Middleware.some_path Middleware.csrfExemptPaths (pathname request) = false ->
      Js.truthy (headers_get request "x-csrf-token") = false ->
      Middleware.middleware request = Middleware.json false "CSRF token required" 403).
Proof.
  intros Hmut Huser.
  assert (Hguard : Csrf.validateCsrf E now request
            = let csrfToken :=
                Js.or_else (headers_get request "x-csrf-token")
                           (cookies_get request "csrf_token") in
              if negb (Js.truthy csrfToken)
              then Normal (Some (Csrf.errorResponse "CSRF token missing" 403))
              else
                let! valid :=
                  Auth.verifyCsrfToken E now (Js.ToString csrfToken)
                    (Auth.id (Auth.claims user)) in
                if negb valid
                then Normal (Some (Csrf.errorResponse "Invalid CSRF token" 403))
                else Normal None).
  { unfold Csrf.validateCsrf. cbv zeta. rewrite Hmut, Huser. reflexivity. }
  rewrite Hguard. cbv zeta. repeat apply conj.
  - intros t Hheader Hcookie Hvalid. rewrite Hheader, Hcookie.
    change (Js.or_else None (Some t)) with (Some t).
    destruct t as [|c r]; [rewrite verifyCsrfToken_empty in Hvalid; discriminate|].
    cbn [Js.truthy String.eqb negb Js.ToString]. rewrite Hvalid. reflexivity.
  - intros Hheader Hcookie. rewrite Hheader, Hcookie. reflexivity.
  - intros t Htoken Ht Hinvalid. rewrite Htoken, (truthy_nonempty t Ht).
    cbn [negb Js.ToString]. rewrite Hinvalid. reflexivity.
  - intros Hapi Hsession Hexempt Hheader.
    now apply middleware_requires_header.
Qed.

Lemma mutation_guard_carriers_witness :
  Csrf.validateCsrf Reference.env 1000 Reference.cookie_only_request = Normal None
  /\ Middleware.middleware Reference.cookie_only_request
     = Middleware.json false "CSRF token required" 403.
Proof.
  pose (user := {| Auth.claims :=
                     {| Auth.id := 7; Auth.email := "alice@example.com";
                        Auth.username := "alice"; Auth.is_host := false |};
                   Auth.iat := 0;
                   Auth.exp := 604800 |}).
  destruct (mutation_guard_carriers Reference.env 1000 Reference.cookie_only_request user)
    as (Hcookie & _ & _ & Hmiddleware);
    [vm_compute; reflexivity|vm_compute; reflexivity|].
  split.
  - apply (Hcookie Reference.csrf); vm_compute; reflexivity.
  - apply Hmiddleware; vm_compute; reflexivity.
Defined.

(** C6 as stated fails at the middleware: this [POST /api/teams] comes from
    an authenticated user and carries a token valid for that user in the
    [csrf_token] cookie and no [X-CSRF-Token] header; [validateCsrf] would
    let it through, but the middleware answers 403 before any route handler
    runs. With the token in the header the middleware lets the request
    pass. *)
Lemma cookie_only_rejected_by_middleware :
  let request := Reference.cookie_only_request in
  Js.includes Csrf.MUTATIONS (Js.toUpperCase (method request)) = true
  /\ Csrf.isCsrfExempt (pathname request) = false
  /\ Auth.getUserFromRequest Reference.env 1000 request
     = Normal (Some {| Auth.claims :=
                         {| Auth.id := 7; Auth.email := "alice@example.com";
                            Auth.username := "alice"; Auth.is_host := false |};
                       Auth.iat := 0;
                       Auth.exp := 604800 |})
  /\ headers_get request "x-csrf-token" = None
  /\ cookies_get request "csrf_token" = Some Reference.csrf
  /\ Auth.verifyCsrfToken Reference.env 1000 Reference.csrf 7 = Normal true
  /\ Csrf.validateCsrf Reference.env 1000 request = Normal None
  /\ Middleware.middleware request = Middleware.json false "CSRF token required" 403
  /\ Middleware.middleware Reference.header_request = Middleware.next.
Proof. vm_compute. repeat split; reflexivity. Qed.

(** C7, as the code has it. Along every sequence of [checkRateLimit] calls
    and sweeps in which the calls on a key all use the same [maxRequests],
    the count stored for a key never exceeds that [maxRequests] plus one when
    [maxRequests] is not negative, and never exceeds one when it is
    negative; and a call stores count 1 for an absent or expired key, leaves
    a full entry as it is, and otherwise adds one to a count that is below
    the limit. *)
Theorem rate_limit_count_bounded (lim : string -> Z) (evs : list RateLimit.event) :
  RateLimit.same_limit lim evs ->
  (forall k e, RateLimit.run evs !! k = Some e ->
     (RateLimit.count e <= Z.max (lim k) 0 + 1)%Z
     /\ ((0 <= lim k)%Z -> (RateLimit.count e <= lim k + 1)%Z)
     /\ ((lim k < 0)%Z -> (RateLimit.count e <= 1)%Z))
  /\ (forall identifier config now (store : gmap string RateLimit.RateLimitEntry),
        let key := RateLimit.key_of identifier config in
        let store' := snd (RateLimit.checkRateLimit identifier config now store) in
        ((store !! key = None
          \/ exists e, store !! key = Some e /\ (now > RateLimit.resetTime e)%Z) ->
           store' !! key
           = Some {| RateLimit.count := 1;
                     RateLimit.resetTime := (now + RateLimit.windowSeconds config * 1000)%Z |})
        /\ (forall e, store !! key = Some e -> (now <= RateLimit.resetTime e)%Z ->
              store' !! key
              = Some (if (RateLimit.count e >=? RateLimit.maxRequests config)%Z then e
                      else {| RateLimit.count := (RateLimit.count e + 1)%Z;
                              RateLimit.resetTime := RateLimit.resetTime e |}))).
Proof.
  intros Hevs. split.
  - intros k e Hk.
    assert (Hbound : (RateLimit.count e <= Z.max (lim k) 0 + 1)%Z).
    { apply (steps_keep_bound lim evs ∅ Hevs); [|exact Hk].
      intros k' e'. rewrite lookup_empty. discriminate. }
    repeat split; lia.
  - intros identifier config now store key store'. subst key store'. split.
    + intros Hstart. rewrite (checkRateLimit_fresh _ _ _ _ Hstart). apply lookup_insert_eq.
    + intros e He Hin.
      destruct (Z.geb_spec (RateLimit.count e) (RateLimit.maxRequests config)) as [Hfull|Hroom].
      * rewrite (checkRateLimit_denied _ _ _ _ e He Hin Hfull). exact He.
      * rewrite (checkRateLimit_counted _ _ _ _ e He Hin Hroom). apply lookup_insert_eq.
Qed.

Lemma rate_limit_count_bounded_witness :
  RateLimit.same_limit (fun _ => 5%Z) Reference.login_attempts
  /\ RateLimit.run Reference.login_attempts !! "login:203.0.113.9"
     = Some {| RateLimit.count := 5; RateLimit.resetTime := 900000 |}
  /\ (5 <= 5 + 1)%Z.
Proof.
  assert (Hsame : RateLimit.same_limit (fun _ => 5%Z) Reference.login_attempts)
    by (repeat constructor).
  assert (Hrun : RateLimit.run Reference.login_attempts !! "login:203.0.113.9"
                 = Some {| RateLimit.count := 5; RateLimit.resetTime := 900000 |})
    by (vm_compute; reflexivity).
  split; [exact Hsame|]. split; [exact Hrun|].
  refine (proj1 (proj2 (proj1 (rate_limit_count_bounded (fun _ => 5%Z)
                                 Reference.login_attempts Hsame) _ _ Hrun)) _).
  lia.
Defined.

(** C7 as stated fails for a negative [maxRequests], which [checkRateLimit]
    takes as it comes: the first call for a key stores count 1, which is
    above [maxRequests + 1 = 0]. *)
Lemma negative_limit_exceeded :
  (let config := {| RateLimit.maxRequests := -1; RateLimit.windowSeconds := 60;
                    RateLimit.prefix := Some "api" |} in
   let evs := [RateLimit.Check Reference.client config 0] in
   RateLimit.same_limit (fun _ => (-1)%Z) evs
   /\ RateLimit.run evs !! "api:203.0.113.9"
      = Some {| RateLimit.count := 1; RateLimit.resetTime := 60000 |}
   /\ ~ (1 <= -1 + 1)%Z)
  /\ ~ (forall (lim : string -> Z) (evs : list RateLimit.event),
          RateLimit.same_limit lim evs ->
          forall k e, RateLimit.run evs !! k = Some e -> (RateLimit.count e <= lim k + 1)%Z).
Proof.
  pose (config := {| RateLimit.maxRequests := -1; RateLimit.windowSeconds := 60;
                     RateLimit.prefix := Some "api" |}).
  assert (Hsame : RateLimit.same_limit (fun _ => (-1)%Z) [RateLimit.Check Reference.client config 0])
    by (repeat constructor).
  assert (Hrun : RateLimit.run [RateLimit.Check Reference.client config 0] !! "api:203.0.113.9"
                 = Some {| RateLimit.count := 1; RateLimit.resetTime := 60000 |})
    by (vm_compute; reflexivity).
  split; [cbv zeta; split; [exact Hsame|split; [exact Hrun|lia]]|].
  intros Hclaim. specialize (Hclaim _ _ Hsame _ _ Hrun). cbn in Hclaim. lia.
Qed.

(** C8, as the code has it. [verifyCsrfToken] returns a boolean on every
    token: what its body throws comes out as [false], and so do too few
    fields, a user field that is not a number and a signature of the wrong
    length. A token is not rejected for being malformed as such: an ASCII
    character outside the base64 alphabet, the padding sign apart, is
    skipped, and fields after the third are not looked at, so the verdict is
    that of the token without them.
    [verifyToken] returns on every token, and returns [null] when
    [jwt.verify] throws. *)
Theorem verification_never_throws (E : Auth.Env) (now : Z) (token : string) (userId : Z) :
  (exists b, Auth.verifyCsrfToken E now token userId = Normal b)
  /\ (forall e, Auth.verifyCsrfToken_try E now token userId = Throw e ->
        Auth.verifyCsrfToken E now token userId = Normal false)
  /\ ((List.length (csrf_fields token) < 3)%nat ->
        Auth.verifyCsrfToken E now token userId = Normal false)
  /\ (Js.parseInt (Js.ToString (nth_error (csrf_fields token) 0)) = Js.NaN ->
        Auth.verifyCsrfToken E now token userId = Normal false)
  /\ (forall sg,
        nth_error (csrf_fields token) 2 = Some sg ->
        String.length sg
        <> String.length
             (Js.hex_encode
                (Auth.hmac_sha256 E (Auth.CSRF_SECRET E)
                   (Js.ToString (nth_error (csrf_fields token) 0) +:+ ":"
                    +:+ Js.ToString (nth_error (csrf_fields token) 1)))) ->
        Auth.verifyCsrfToken E now token userId = Normal false)
  /\ (forall pre c post,
        token = pre +:+ String c post ->
        is_ascii c = true -> Js.unbase64 c = None -> c <> "="%char ->
        Auth.verifyCsrfToken E now token userId
        = Auth.verifyCsrfToken E now (pre +:+ post) userId)
  /\ (forall token',
        firstn 3 (csrf_fields token) = firstn 3 (csrf_fields token') ->
        Auth.verifyCsrfToken E now token userId = Auth.verifyCsrfToken E now token' userId)
  /\ (exists r, Auth.verifyToken E now token = Normal r)
  /\ (forall e, Auth.jwt_verify E token (Auth.JWT_SECRET E) now = Throw e ->
        Auth.verifyToken E now token = Normal None).
Proof.
  destruct (verifyCsrfToken_returns E now token userId) as (b & Hb & Hthrown).
  destruct (verifyToken_returns E now token) as (r & Hr & Hnull).
  repeat apply conj.
  - eauto.
  - intros e He. rewrite Hb. f_equal. eauto.
  - apply verify_few_fields.
  - apply verify_non_numeric_user.
  - apply verify_signature_length.
  - intros pre c post -> _ Hc Heq. now apply verify_skips_character.
  - intros token'. apply verify_first_three.
  - eauto.
  - intros e He. rewrite Hr. f_equal. eauto.
Qed.

Lemma verification_never_throws_witness :
  Auth.verifyCsrfToken_try Reference.env 1000 "NQ==" 5
  = Throw (TypeError "The first argument must be of type string")
  /\ Auth.verifyCsrfToken Reference.env 1000 "NQ==" 5 = Normal false
  /\ Auth.jwt_verify Reference.env "garbage" (Auth.JWT_SECRET Reference.env) 1000
     = Throw (JsonWebTokenError "jwt malformed")
  /\ Auth.verifyToken Reference.env 1000 "garbage" = Normal None.
Proof.
  assert (H1 : Auth.verifyCsrfToken_try Reference.env 1000 "NQ==" 5
               = Throw (TypeError "The first argument must be of type string"))
    by (vm_compute; reflexivity).
  assert (H2 : Auth.jwt_verify Reference.env "garbage" (Auth.JWT_SECRET Reference.env) 1000
               = Throw (JsonWebTokenError "jwt malformed"))
    by (vm_compute; reflexivity).
  split; [exact H1|]. split.
  - exact (proj1 (proj2 (verification_never_throws Reference.env 1000 "NQ==" 5)) _ H1).
  - split; [exact H2|].
    destruct (verification_never_throws Reference.env 1000 "garbage" 5)
      as (_ & _ & _ & _ & _ & _ & _ & _ & Hnull).
    exact (Hnull _ H2).
Defined.

(** C8 as stated fails: not every malformed token comes out as [false].
    Alice's token with characters outside the base64 alphabet put into it,
    her token with two more fields appended, and a token whose timestamp
    field is not a number but whose signature fits all verify for her. *)
Lemma malformed_token_accepted :
  (let stray := "*" +:+ Reference.csrf +:+ " !" in
   let longer := Js.base64_encode (Js.base64_decode Reference.csrf +:+ ":x:y") in
   let undated :=
     Js.base64_encode
       ("7:soon:" +:+ Js.hex_encode (Reference.mac "csrf-secret" "7:soon")) in
   Js.unbase64 "*" = None /\ Js.unbase64 " " = None /\ Js.unbase64 "!" = None
   /\ Auth.verifyCsrfToken Reference.env 1000 stray 7 = Normal true
   /\ List.length (csrf_fields longer) = 5%nat
   /\ Auth.verifyCsrfToken Reference.env 1000 longer 7 = Normal true
   /\ Js.parseInt (Js.ToString (nth_error (csrf_fields undated) 1)) = Js.NaN
   /\ Auth.verifyCsrfToken Reference.env 1000 undated 7 = Normal true)
  /\ ~ (forall (E : Auth.Env) (now : Z) (token : string) (userId : Z),
          lacks "*" token = false \/ List.length (csrf_fields token) <> 3%nat
          \/ Js.parseInt (Js.ToString (nth_error (csrf_fields token) 1)) = Js.NaN ->
          Auth.verifyCsrfToken E now token userId = Normal false).
Proof.
  assert (Hstray : Auth.verifyCsrfToken Reference.env 1000
                     ("*" +:+ Reference.csrf +:+ " !") 7 = Normal true)
    by (vm_compute; reflexivity).
  split; [vm_compute; auto 9|].
  intros Hclaim.
  rewrite (Hclaim Reference.env 1000%Z ("*" +:+ Reference.csrf +:+ " !") 7%Z) in Hstray;
    [discriminate Hstray|].
  left. vm_compute. reflexivity.
Qed.

(** C9, as the code has it. When the [auth_token] cookie holds a non-empty
    value that fails verification, [getUserFromRequest] returns [null]
    whatever the Authorization header holds. The header is consulted when
    the cookie is absent or when its value is the empty string. *)
Theorem cookie_shadows_header (E : Auth.Env) (now : Z) (request : Request) :
  (forall v,
      cookies_get request "auth_token" = Some v -> v <> "" ->
      Auth.verifyToken E now v = Normal None ->
      Auth.getUserFromRequest E now request = Normal None)
  /\ ((cookies_get request "auth_token" = None \/ cookies_get request "auth_token" = Some "") ->
        Auth.getUserFromRequest E now request
        = match headers_get request "authorization" with
          | Some authHeader =>
              if Js.startsWith authHeader "Bearer "
              then Auth.verifyToken E now (nth 1 (Js.split " " authHeader) "")
              else Normal None
          | None => Normal None
          end).
Proof.
  unfold Auth.getUserFromRequest. cbv zeta. split.
  - intros v Hcookie Hv Hbad. rewrite Hcookie, (truthy_nonempty v Hv). exact Hbad.
  - intros [Hcookie|Hcookie]; rewrite Hcookie; reflexivity.
Qed.

Lemma cookie_shadows_header_witness :
  cookies_get Reference.bad_cookie_request "auth_token" = Some "garbage"
  /\ Auth.verifyToken Reference.env 1000 "garbage" = Normal None
  /\ (exists decoded,
        Auth.verifyToken Reference.env 1000 Reference.session = Normal (Some decoded))
  /\ Auth.getUserFromRequest Reference.env 1000 Reference.bad_cookie_request = Normal None.
Proof.
  assert (Hcookie : cookies_get Reference.bad_cookie_request "auth_token" = Some "garbage")
    by (vm_compute; reflexivity).
  assert (Hbad : Auth.verifyToken Reference.env 1000 "garbage" = Normal None)
    by (vm_compute; reflexivity).
  split; [exact Hcookie|]. split; [exact Hbad|]. split.
  - eexists. vm_compute. reflexivity.
  - apply (proj1 (cookie_shadows_header Reference.env 1000 Reference.bad_cookie_request)
             "garbage" Hcookie); [discriminate|exact Hbad].
Defined.

(** C9 as stated fails: the [auth_token] cookie is present, its value (the
    empty string) fails verification, and yet the Bearer token of the header
    is what [getUserFromRequest] returns. *)
Lemma empty_cookie_falls_back :
  cookies_get Reference.empty_cookie_request "auth_token" = Some ""
  /\ Auth.verifyToken Reference.env 1000 "" = Normal None
  /\ headers_get Reference.empty_cookie_request "authorization"
     = Some "Bearer 7.616c696365406578616d706c652e636f6d.616c696365.0.0.604800.6a77742d7365637265747c372e363136633639363336353430363537383631366437303663363532653633366636642e363136633639363336352e302e302e363034383030"
  /\ Auth.getUserFromRequest Reference.env 1000 Reference.empty_cookie_request
     = Normal (Some {| Auth.claims :=
                         {| Auth.id := 7; Auth.email := "alice@example.com";
                            Auth.username := "alice"; Auth.is_host := false |};
                       Auth.iat := 0;
                       Auth.exp := 604800 |})
  /\ ~ (forall (E : Auth.Env) (now : Z) (request : Request) (v : string),
          cookies_get request "auth_token" = Some v ->
          Auth.verifyToken E now v = Normal None ->
          Auth.getUserFromRequest E now request = Normal None).
Proof.
  assert (Hcookie : cookies_get Reference.empty_cookie_request "auth_token" = Some "")
    by (vm_compute; reflexivity).
  assert (Hbad : Auth.verifyToken Reference.env 1000 "" = Normal None)
    by (vm_compute; reflexivity).
  assert (Huser : Auth.getUserFromRequest Reference.env 1000 Reference.empty_cookie_request
                  = Normal (Some {| Auth.claims :=
                                      {| Auth.id := 7; Auth.email := "alice@example.com";
                                         Auth.username := "alice"; Auth.is_host := false |};
                                    Auth.iat := 0;
                                    Auth.exp := 604800 |}))
    by (vm_compute; reflexivity).
  split; [exact Hcookie|]. split; [exact Hbad|]. split; [vm_compute; reflexivity|].
  split; [exact Huser|].
  intros Hclaim.
  specialize (Hclaim Reference.env 1000%Z Reference.empty_cookie_request "" Hcookie Hbad).
  rewrite Huser in Hclaim. discriminate Hclaim.
Qed.

(** C10. A call of [checkRateLimit] that is denied leaves the store as it
    was: the same entry under every key. *)
Theorem denial_leaves_store_unchanged identifier config now
    (store : gmap string RateLimit.RateLimitEntry) :
  RateLimit.success (fst (RateLimit.checkRateLimit identifier config now store)) = false ->
  snd (RateLimit.checkRateLimit identifier config now store) = store
  /\ forall k, snd (RateLimit.checkRateLimit identifier config now store) !! k = store !! k.
Proof.
  intros Hdenied.
  assert (Hsame : snd (RateLimit.checkRateLimit identifier config now store) = store).
  { destruct (checkRateLimit_cases identifier config now store)
      as [(_ & Hs & _)|[(e & _ & _ & _ & _ & _ & _ & Hstore)|(e & _ & _ & _ & Hs & _)]];
      cbv zeta in *; congruence. }
  split; [exact Hsame|]. intros k. now rewrite Hsame.
Qed.

Lemma denial_leaves_store_unchanged_witness :
  RateLimit.success
    (fst (RateLimit.checkRateLimit Reference.client RateLimit.loginRateLimit 6000
            Reference.exhausted)) = false
  /\ snd (RateLimit.checkRateLimit Reference.client RateLimit.loginRateLimit 6000
            Reference.exhausted) = Reference.exhausted.
Proof.
  assert (Hdenied : RateLimit.success
            (fst (RateLimit.checkRateLimit Reference.client RateLimit.loginRateLimit 6000
                    Reference.exhausted)) = false)
    by (vm_compute; reflexivity).
  split; [exact Hdenied|].
  exact (proj1 (denial_leaves_store_unchanged Reference.client RateLimit.loginRateLimit 6000
                  Reference.exhausted Hdenied)).
Defined.

(** * Further properties *)

(** ** CSRF tokens *)

(** X1. What [verifyCsrfToken] accepts, exactly, among the ASCII tokens
    that decode to ASCII text, for a user id that is a safe integer and a
    clock that is a safe integer and not negative: a token with at least three
    fields whose first field parses to the expected user id, whose third
    field is the hex HMAC of the first two fields as written, and whose
    second field either does not parse as a number or parses to a timestamp
    at most 24 hours behind the clock. *)
Theorem verifyCsrfToken_accepts_iff (E : Auth.Env) (now : Z) (token : string) (userId : Z) :
  all_chars is_ascii token = true ->
  all_chars is_ascii (Js.base64_decode token) = true ->
  Js.safe_integer userId ->
  Js.safe_integer now -> (0 <= now)%Z ->
  Auth.verifyCsrfToken E now token userId = Normal true
  <-> exists f0 f1 sg,
        firstn 3 (csrf_fields token) = [f0; f1; sg]
        /\ Js.parseInt f0 = Js.Num userId
        /\ (Js.parseInt f1 = Js.NaN
            \/ exists ts, Js.parseInt f1 = Js.Num ts /\ (now - ts <= 24 * 60 * 60 * 1000)%Z)
        /\ sg = Js.hex_encode
                  (Auth.hmac_sha256 E (Auth.CSRF_SECRET E) (f0 +:+ ":" +:+ f1)).
Proof.
  intros _ _ _ _ _.
  unfold Auth.verifyCsrfToken, Auth.verifyCsrfToken_try, csrf_fields. cbv zeta.
  destruct (Js.split ":" (Js.base64_decode token)) as [|f0 [|f1 [|sg rest]]];
    cbn [nth_error firstn Js.ToString].
  - split; [discriminate|]. intros (? & ? & ? & [=] & _).
  - split; [|intros (? & ? & ? & [=] & _)].
    destruct (Js.strict_neq _ _); [discriminate|].
    change (Js.parseInt "undefined") with Js.NaN. cbn. discriminate.
  - split; [|intros (? & ? & ? & [=] & _)].
    destruct (Js.strict_neq _ _); [discriminate|].
    destruct (Js.gt _ _); [discriminate|]. cbn. discriminate.
  - cbn [Js.Buffer_from bind]. unfold Js.timingSafeEqual.
    set (expected := Js.hex_encode _).
    split.
    + intros Hok. exists f0, f1, sg. split; [reflexivity|].
      destruct (Js.parseInt f0) as [u|]; [|discriminate]. cbn [Js.strict_neq] in Hok.
      destruct (Z.eqb_spec u userId) as [Hu|Hu]; [subst u|discriminate]. cbn [negb] in Hok.
      split; [reflexivity|].
      destruct (Js.parseInt f1) as [ts|]; cbn [Js.sub Js.gt] in Hok.
      * destruct (Z.gtb_spec (now - ts) (24 * 60 * 60 * 1000)); [discriminate|].
        split; [right; exists ts; split; [reflexivity|lia]|].
        destruct (String.length sg =? String.length expected)%nat; [|discriminate].
        destruct (String.eqb_spec sg expected) as [Hsg|Hsg]; cbn [try_catch] in Hok;
          [exact Hsg|discriminate Hok].
      * split; [left; reflexivity|].
        destruct (String.length sg =? String.length expected)%nat; [|discriminate].
        destruct (String.eqb_spec sg expected) as [Hsg|Hsg]; cbn [try_catch] in Hok;
          [exact Hsg|discriminate Hok].
    + intros (g0 & g1 & g2 & [= <- <- <-] & Hu & Hage & Hsg).
      rewrite Hu. cbn [Js.strict_neq]. rewrite Z.eqb_refl. cbn [negb].
      assert (Hgt : Js.gt (Js.sub (Js.Num now) (Js.parseInt f1))
                      (Js.Num (24 * 60 * 60 * 1000)) = false).
      { destruct Hage as [->|(ts & -> & Hts)]; [reflexivity|].
        cbn [Js.sub Js.gt]. destruct (Z.gtb_spec (now - ts) (24 * 60 * 60 * 1000)); [lia|reflexivity]. }
      rewrite Hgt. subst expected. rewrite <- Hsg.
      now rewrite Nat.eqb_refl, String.eqb_refl.
Qed.

Lemma verifyCsrfToken_accepts_iff_witness :
  all_chars is_ascii Reference.csrf = true
  /\ all_chars is_ascii (Js.base64_decode Reference.csrf) = true
  /\ Js.safe_integer 7 /\ Js.safe_integer 1000 /\ (0 <= 1000)%Z
  /\ (exists f0 f1 sg,
        firstn 3 (csrf_fields Reference.csrf) = [f0; f1; sg]
        /\ Js.parseInt f0 = Js.Num 7
        /\ (Js.parseInt f1 = Js.NaN
            \/ exists ts, Js.parseInt f1 = Js.Num ts /\ (1000 - ts <= 24 * 60 * 60 * 1000)%Z)
        /\ sg = Js.hex_encode
                  (Auth.hmac_sha256 Reference.env (Auth.CSRF_SECRET Reference.env)
                     (f0 +:+ ":" +:+ f1))).
Proof.
  assert (Htoken : all_chars is_ascii Reference.csrf = true) by (vm_compute; reflexivity).
  assert (Hascii : all_chars is_ascii (Js.base64_decode Reference.csrf) = true)
    by (vm_compute; reflexivity).
  assert (H7 : Js.safe_integer 7) by (split; vm_compute; discriminate).
  assert (H1000 : Js.safe_integer 1000) by (split; vm_compute; discriminate).
  assert (Hpos : (0 <= 1000)%Z) by lia.
  assert (Hok : Auth.verifyCsrfToken Reference.env 1000 Reference.csrf 7 = Normal true)
    by (vm_compute; reflexivity).
  repeat (split; [assumption|]).
  exact (proj1 (verifyCsrfToken_accepts_iff Reference.env 1000 Reference.csrf 7
                  Htoken Hascii H7 H1000 Hpos) Hok).
Defined.

(** X2. The life of an issued token, for a user id and a time of issue that
    are safe integers: presented by its own user it is accepted exactly while
    the clock is at most 24 hours past the time of issue, the last
    millisecond included and a clock behind the time of issue too; otherwise
    the answer is [false]. *)
Theorem issued_token_window (E : Auth.Env) (issued now userId : Z) :
  Js.safe_integer userId -> Js.safe_integer issued ->
  Auth.verifyCsrfToken E now (Auth.generateCsrfToken E issued userId) userId
  = Normal (now - issued <=? 24 * 60 * 60 * 1000)%Z.
Proof.
  intros Hu%safe_integer_plain Ht%safe_integer_plain.
  rewrite generateCsrfToken_with_none, verify_issued, Z.eqb_refl by assumption.
  cbn [andb]. f_equal.
  destruct (Z.gtb_spec (now - issued) (24 * 60 * 60 * 1000));
    destruct (Z.leb_spec (now - issued) (24 * 60 * 60 * 1000)); (reflexivity || lia).
Qed.

Lemma issued_token_window_witness :
  Js.safe_integer 7 /\ Js.safe_integer 1730000000000
  /\ Auth.verifyCsrfToken Reference.env 1730086400001
       (Auth.generateCsrfToken Reference.env 1730000000000 7) 7
     = Normal false.
Proof.
  assert (H7 : Js.safe_integer 7) by (split; vm_compute; discriminate).
  assert (Ht : Js.safe_integer 1730000000000) by (split; vm_compute; discriminate).
  split; [exact H7|]. split; [exact Ht|].
  exact (issued_token_window Reference.env 1730000000000 1730086400001 7 H7 Ht).
Defined.

(** X3. Tokens issued for different users or at different times differ. *)
Theorem generateCsrfToken_injective (E : Auth.Env) (issued issued' userId userId' : Z) :
  issued <> issued' \/ userId <> userId' ->
  Auth.generateCsrfToken E issued userId <> Auth.generateCsrfToken E issued' userId'.
Proof.
  intros Hdiff Heq.
  apply (f_equal Js.base64_decode) in Heq. rewrite !generateCsrfToken_decodes in Heq.
  apply (f_equal (Js.split ":")) in Heq.
  change (csrf_text E issued userId) with (csrf_text_with E issued userId None) in Heq.
  change (csrf_text E issued' userId') with (csrf_text_with E issued' userId' None) in Heq.
  rewrite !csrf_text_fields in Heq.
  injection Heq as Hu%Number_toString_inj Ht%Number_toString_inj _.
  destruct Hdiff; congruence.
Qed.

Lemma generateCsrfToken_injective_witness :
  Auth.generateCsrfToken Reference.env 0 7 <> Auth.generateCsrfToken Reference.env 0 8.
Proof.
  apply (generateCsrfToken_injective Reference.env 0 0 7 8). right. discriminate.
Defined.

(** ** Request authentication *)

Lemma getUserFromRequest_eq (E : Auth.Env) (now : Z) (request : Request) :
  Auth.getUserFromRequest E now request
  = if Js.truthy (cookies_get request "auth_token")
    then Auth.getCurrentUser E now (cookies request)
    else Auth.getUserFromHeader E now (headers_get request "authorization").
Proof.
  unfold Auth.getUserFromRequest, Auth.getCurrentUser, Auth.getUserFromHeader, cookies_get.
  cbv zeta. destruct (Js.truthy (cookies request !! "auth_token")); [reflexivity|].
  destruct (headers_get request "authorization") as [h|]; [|reflexivity].
  destruct (Js.startsWith h "Bearer "); reflexivity.
Qed.

(** X4. [getUserFromRequest] is [getCurrentUser] on the cookies when the
    [auth_token] cookie holds a non-empty value, and the deprecated
    [getUserFromHeader] on the Authorization header otherwise. *)
Theorem getUserFromRequest_decomposes (E : Auth.Env) (now : Z) (request : Request) :
  Auth.getUserFromRequest E now request
  = if Js.truthy (cookies_get request "auth_token")
    then Auth.getCurrentUser E now (cookies request)
    else Auth.getUserFromHeader E now (headers_get request "authorization").
Proof. apply getUserFromRequest_eq. Qed.

Lemma startsWith_app p s : Js.startsWith (p +:+ s) p = true.
Proof.
  unfold Js.startsWith. induction p as [|c p IH]; [destruct s; reflexivity|].
  rewrite append_String. cbn [String.prefix].
  destruct (ascii_dec c c); [exact IH|contradiction].
Qed.

(** X5. The Bearer token that is verified is the text between the first
    and the second space of the header: a token without a space goes to
    [verifyToken] whole, and whatever follows a space after it is ignored. *)
Theorem bearer_token_extracted (E : Auth.Env) (now : Z) (token : string) :
  lacks " " token = true ->
  Auth.getUserFromHeader E now (Some ("Bearer " +:+ token)) = Auth.verifyToken E now token
  /\ (forall junk,
        Auth.getUserFromHeader E now (Some ("Bearer " +:+ token +:+ " " +:+ junk))
        = Auth.verifyToken E now token)
  /\ (forall request,
        Js.truthy (cookies_get request "auth_token") = false ->
        headers_get request "authorization" = Some ("Bearer " +:+ token) ->
        Auth.getUserFromRequest E now request = Auth.verifyToken E now token).
Proof.
  intros Htoken.
  assert (H1 : Auth.getUserFromHeader E now (Some ("Bearer " +:+ token))
               = Auth.verifyToken E now token).
  { unfold Auth.getUserFromHeader. rewrite startsWith_app. cbn [negb].
    change ("Bearer " +:+ token) with ("Bearer" +:+ String " " token).
    rewrite split_app by reflexivity. now rewrite split_lacks. }
  split; [exact H1|]. split.
  - intros junk. unfold Auth.getUserFromHeader. rewrite startsWith_app. cbn [negb].
    change ("Bearer " +:+ token +:+ " " +:+ junk)
      with ("Bearer" +:+ String " " (token +:+ String " " junk)).
    rewrite split_app by reflexivity. now rewrite split_app.
  - intros request Hcookie Hheader.
    now rewrite getUserFromRequest_eq, Hcookie, Hheader.
Qed.

Lemma bearer_token_extracted_witness :
  Auth.getUserFromHeader Reference.env 1000 (Some ("Bearer " +:+ Reference.session))
  = Auth.verifyToken Reference.env 1000 Reference.session.
Proof.
  assert (Hclean : lacks " " Reference.session = true) by (vm_compute; reflexivity).
  exact (proj1 (bearer_token_extracted Reference.env 1000 Reference.session Hclean)).
Defined.

(** ** The mutation guard *)

(** X6. [validateCsrf] never throws and gives one of three answers: no
    objection, "CSRF token missing" or "Invalid CSRF token", both with
    status 403. It has no objection to any request whose method is not a
    mutation and to any request without an authenticated user. *)
Theorem validateCsrf_answers (E : Auth.Env) (now : Z) (request : Request) :
  (Csrf.validateCsrf E now request = Normal None
   \/ Csrf.validateCsrf E now request
      = Normal (Some (Csrf.errorResponse "CSRF token missing" 403))
   \/ Csrf.validateCsrf E now request
      = Normal (Some (Csrf.errorResponse "Invalid CSRF token" 403)))
  /\ (Js.includes Csrf.MUTATIONS (Js.toUpperCase (method request)) = false ->
      Csrf.validateCsrf E now request = Normal None)
  /\ (Auth.getUserFromRequest E now request = Normal None ->
      Csrf.validateCsrf E now request = Normal None).
Proof.
  unfold Csrf.validateCsrf. cbv zeta.
  assert (Huser : exists r, Auth.getUserFromRequest E now request = Normal r).
  { rewrite getUserFromRequest_eq.
    unfold Auth.getCurrentUser, Auth.getUserFromHeader. cbv zeta.
    destruct (Js.truthy (cookies_get request "auth_token")).
    - destruct (negb _); [eauto|].
      destruct (verifyToken_returns E now (Js.ToString (cookies request !! "auth_token")))
        as (r & -> & _). eauto.
    - destruct (headers_get request "authorization") as [h|]; [|eauto].
      destruct (negb _); [eauto|].
      destruct (verifyToken_returns E now (nth 1 (Js.split " " h) "")) as (r & -> & _). eauto. }
  destruct Huser as [r Hr]. rewrite Hr. cbn [bind].
  repeat apply conj.
  - destruct (Js.includes _ _); cbn [negb]; [|now left].
    destruct r as [user|]; [|now left].
    destruct (Js.truthy _); cbn [negb]; [|right; now left].
    destruct (verifyCsrfToken_returns E now
                (Js.ToString (Js.or_else (headers_get request "x-csrf-token")
                                         (cookies_get request "csrf_token")))
                (Auth.id (Auth.claims user))) as (b & -> & _).
    cbn [bind]. destruct b; cbn [negb]; [now left|right; now right].
  - intros ->. reflexivity.
  - intros [= ->]. destruct (negb _); reflexivity.
Qed.

Lemma validateCsrf_answers_witness :
  Csrf.validateCsrf Reference.env 1000 Reference.empty_cookie_request = Normal None.
Proof.
  apply (proj1 (proj2 (validateCsrf_answers Reference.env 1000 Reference.empty_cookie_request))).
  vm_compute. reflexivity.
Defined.

(** ** The middleware *)

(** Names the tests the middleware makes on a request. *)
Ltac middleware_tests request :=
  unfold Middleware.middleware; cbv zeta;
  change (Js.includes ["POST"; "PUT"; "DELETE"; "PATCH"] (Js.toUpperCase (method request)))
    with (Js.includes Csrf.MUTATIONS (Js.toUpperCase (method request)));
  generalize (Js.includes Csrf.MUTATIONS (Js.toUpperCase (method request)));
  generalize (Middleware.some_path Middleware.csrfExemptPaths (pathname request));
  generalize (Js.truthy (headers_get request "x-csrf-token"));
  generalize (Js.truthy (Middleware.session_token request));
  generalize (Middleware.some_path Middleware.publicPaths (pathname request)).

Lemma middleware_csrf_gate_table (request : Request) :
  Middleware.middleware request = Middleware.json false "CSRF token required" 403
  <-> Js.startsWith (pathname request) "/api/" = true
      /\ Js.truthy (Middleware.session_token request) = true
      /\ Js.includes Csrf.MUTATIONS (Js.toUpperCase (method request)) = true
      /\ Middleware.some_path Middleware.csrfExemptPaths (pathname request) = false
      /\ Js.truthy (headers_get request "x-csrf-token") = false.
Proof.
  middleware_tests request. intros isPublic token header exempt mutation.
  destruct (Js.startsWith (pathname request) "/api/"), isPublic, token, header, exempt,
    mutation, (String.eqb (pathname request) "/api/auth/login"),
    (String.eqb (pathname request) "/api/auth/logout");
    cbn; split; try discriminate; try (intros (? & ? & ? & ? & ?); discriminate);
    try (intros _; repeat split; reflexivity); reflexivity.
Qed.

Lemma middleware_turns_away (request : Request) :
  (Middleware.middleware request = Middleware.json false "Unauthorized" 401
   <-> Middleware.some_path Middleware.publicPaths (pathname request) = false
       /\ Js.truthy (Middleware.session_token request) = false
       /\ Js.startsWith (pathname request) "/api/" = true)
  /\ (Middleware.middleware request = Middleware.redirect "/login"
      <-> Middleware.some_path Middleware.publicPaths (pathname request) = false
          /\ Js.truthy (Middleware.session_token request) = false
          /\ Js.startsWith (pathname request) "/api/" = false).
Proof.
  middleware_tests request. intros isPublic token header exempt mutation.
  destruct (Js.startsWith (pathname request) "/api/"), isPublic, token, header, exempt,
    mutation, (String.eqb (pathname request) "/api/auth/login"),
    (String.eqb (pathname request) "/api/auth/logout");
    cbn; split; split; try discriminate; try (intros (? & ? & ?); discriminate);
    try (intros _; repeat split; reflexivity); reflexivity.
Qed.

(** X8. The middleware answers 403 "CSRF token required" exactly to a
    mutation on a non-exempt [/api/] path that carries a session token and
    no [X-CSRF-Token] header (or an empty one). *)
Theorem middleware_csrf_gate (request : Request) :
  Middleware.middleware request = Middleware.json false "CSRF token required" 403
  <-> Js.startsWith (pathname request) "/api/" = true
      /\ Js.truthy (Middleware.session_token request) = true
      /\ Js.includes Csrf.MUTATIONS (Js.toUpperCase (method request)) = true
      /\ Middleware.some_path Middleware.csrfExemptPaths (pathname request) = false
      /\ Js.truthy (headers_get request "x-csrf-token") = false.
Proof. apply middleware_csrf_gate_table. Qed.

(** X9. The middleware turns a request away as unauthenticated exactly when
    the path is not public and the request carries no session token: with
    401 on an [/api/] path, with a redirect to [/login] elsewhere. *)
Theorem middleware_unauthenticated (request : Request) :
  (Middleware.middleware request = Middleware.json false "Unauthorized" 401
   <-> Middleware.some_path Middleware.publicPaths (pathname request) = false
       /\ Js.truthy (Middleware.session_token request) = false
       /\ Js.startsWith (pathname request) "/api/" = true)
  /\ (Middleware.middleware request = Middleware.redirect "/login"
      <-> Middleware.some_path Middleware.publicPaths (pathname request) = false
          /\ Js.truthy (Middleware.session_token request) = false
          /\ Js.startsWith (pathname request) "/api/" = false).
Proof. apply middleware_turns_away. Qed.

(** X10. The middleware redirects to [/dashboard] exactly when the path is
    public, the request carries a session token and the path is not under
    [/api/]: an API route is never redirected. *)
Theorem middleware_dashboard (request : Request) :
  Middleware.middleware request = Middleware.redirect "/dashboard"
  <-> Middleware.some_path Middleware.publicPaths (pathname request) = true
      /\ Js.truthy (Middleware.session_token request) = true
      /\ Js.startsWith (pathname request) "/api/" = false.
Proof.
  assert (Hlogin : String.eqb (pathname request) "/api/auth/login" = true ->
                   Js.startsWith (pathname request) "/api/" = true)
    by (intros H; apply String.eqb_eq in H; rewrite H; reflexivity).
  assert (Hlogout : String.eqb (pathname request) "/api/auth/logout" = true ->
                    Js.startsWith (pathname request) "/api/" = true)
    by (intros H; apply String.eqb_eq in H; rewrite H; reflexivity).
  revert Hlogin Hlogout.
  middleware_tests request. intros isPublic token header exempt mutation.
  destruct (Js.startsWith (pathname request) "/api/"), isPublic, token, header, exempt,
    mutation, (String.eqb (pathname request) "/api/auth/login"),
    (String.eqb (pathname request) "/api/auth/logout");
    cbn; intros Hlogin Hlogout; split; try discriminate;
    try (intros (? & ? & ?); discriminate);
    try (intros _; repeat split; reflexivity);
    try (specialize (Hlogin eq_refl); discriminate);
    try (specialize (Hlogout eq_refl); discriminate); reflexivity.
Qed.

Lemma prefix_trans a : forall b c,
  String.prefix a b = true -> String.prefix b c = true -> String.prefix a c = true.
Proof.
  induction a as [|x a IH]; intros b c Hab Hbc; [destruct c; reflexivity|].
  destruct b as [|y b]; [discriminate|]. cbn [String.prefix] in Hab.
  destruct (ascii_dec x y) as [->|]; [|discriminate].
  destruct c as [|z c]; [discriminate|]. cbn [String.prefix] in Hbc |- *.
  destruct (ascii_dec y z) as [->|]; [|discriminate]. eauto.
Qed.

Lemma exempt_is_public_api pathname :
  Middleware.some_path Middleware.csrfExemptPaths pathname = true ->
  Js.startsWith pathname "/api/" = true
  /\ Middleware.some_path Middleware.publicPaths pathname = true.
Proof.
  unfold Middleware.some_path. intros H.
  apply existsb_exists in H as (path & Hin & Hmatch).
  assert (Hapi : String.prefix "/api/" path = true
                 /\ String.prefix "/api/" (path +:+ "/") = true
                 /\ In path Middleware.publicPaths).
  { cbn in Hin. repeat (destruct Hin as [<-|Hin]; [repeat split; cbn; tauto|]).
    contradiction. }
  destruct Hapi as (Hp1 & Hp2 & Hpub). split.
  - apply orb_true_iff in Hmatch as [Heq|Hpre].
    + apply String.eqb_eq in Heq. subst. exact Hp1.
    + exact (prefix_trans _ _ _ Hp2 Hpre).
  - apply existsb_exists. exists path. split; assumption.
Qed.

(** X11. The exempt paths of [lib/csrf.ts] and of the middleware are the same;
    every exempt path is a public [/api/] path; and the middleware lets every
    request to an exempt path pass, whatever its method, cookies and
    headers. *)
Theorem exempt_paths_pass (request : Request) :
  Csrf.isCsrfExempt (pathname request)
  = Middleware.some_path Middleware.csrfExemptPaths (pathname request)
  /\ (Csrf.isCsrfExempt (pathname request) = true ->
      Js.startsWith (pathname request) "/api/" = true
      /\ Middleware.some_path Middleware.publicPaths (pathname request) = true
      /\ Middleware.middleware request = Middleware.next).
Proof.
  split; [reflexivity|].
  change (Csrf.isCsrfExempt (pathname request))
    with (Middleware.some_path Middleware.csrfExemptPaths (pathname request)).
  intros Hexempt. destruct (exempt_is_public_api _ Hexempt) as [Hapi Hpublic].
  split; [exact Hapi|]. split; [exact Hpublic|].
  unfold Middleware.middleware. cbv zeta. rewrite Hapi, Hpublic, Hexempt.
  cbn [negb andb]. rewrite !andb_false_r. reflexivity.
Qed.

Lemma exempt_paths_pass_witness :
  Middleware.middleware
    {| method := "POST"; pathname := "/api/auth/login"; cookies := ∅; headers := ∅ |}
  = Middleware.next.
Proof.
  apply (exempt_paths_pass
           {| method := "POST"; pathname := "/api/auth/login"; cookies := ∅; headers := ∅ |}).
  vm_compute. reflexivity.
Defined.

Lemma startsWith_inv s p : Js.startsWith s p = true -> exists rest, s = p +:+ rest.
Proof.
  unfold Js.startsWith. revert s. induction p as [|c p IH]; intros s H.
  - exists s. reflexivity.
  - destruct s as [|d s]; [discriminate|]. cbn [String.prefix] in H.
    destruct (ascii_dec c d) as [->|]; [|discriminate].
    destruct (IH s H) as [rest ->]. exists rest. reflexivity.
Qed.

Lemma bearer_parts rest :
  Js.replace "Bearer " "" ("Bearer " +:+ rest) = rest
  /\ (rest = "" -> nth 1 (Js.split " " ("Bearer " +:+ rest)) "" = "").
Proof.
  split.
  - destruct rest; reflexivity.
  - intros ->. reflexivity.
Qed.

(** X12. Middleware and authenticator agree on who carries a session: when
    [jwt.verify] rejects the empty token, every request for which
    [getUserFromRequest] finds a user carries a session token in the eyes of
    the middleware, which therefore never answers it with 401 or with a
    redirect to [/login]. *)
Theorem authenticated_is_admitted (E : Auth.Env) (now : Z) (request : Request)
    (user : Auth.JwtPayload) :
  Auth.verifyToken E now "" = Normal None ->
  Auth.getUserFromRequest E now request = Normal (Some user) ->
  Js.truthy (Middleware.session_token request) = true
  /\ Middleware.middleware request <> Middleware.json false "Unauthorized" 401
  /\ Middleware.middleware request <> Middleware.redirect "/login".
Proof.
  intros Hempty Huser.
  assert (Htoken : Js.truthy (Middleware.session_token request) = true).
  { unfold Middleware.session_token, Js.or_else. cbv zeta.
    revert Huser. unfold Auth.getUserFromRequest. cbv zeta.
    destruct (Js.truthy (cookies_get request "auth_token")) eqn:Hcookie; [now rewrite Hcookie|].
    destruct (headers_get request "authorization") as [h|]; [|discriminate].
    destruct (Js.startsWith h "Bearer ") eqn:Hbearer; [|discriminate].
    destruct (startsWith_inv _ _ Hbearer) as [rest ->].
    destruct (bearer_parts rest) as [-> Hnth].
    destruct rest as [|c rest']; [|reflexivity].
    rewrite (Hnth eq_refl), Hempty. discriminate. }
  split; [exact Htoken|]. split; intros H.
  - apply (proj1 (middleware_turns_away request)) in H. destruct H as (_ & H & _). congruence.
  - apply (proj2 (middleware_turns_away request)) in H. destruct H as (_ & H & _). congruence.
Qed.

Lemma authenticated_is_admitted_witness :
  Js.truthy (Middleware.session_token Reference.cookie_only_request) = true
  /\ Middleware.middleware Reference.cookie_only_request
     <> Middleware.json false "Unauthorized" 401.
Proof.
  destruct (authenticated_is_admitted Reference.env 1000 Reference.cookie_only_request
              {| Auth.claims :=
                   {| Auth.id := 7; Auth.email := "alice@example.com";
                      Auth.username := "alice"; Auth.is_host := false |};
                 Auth.iat := 0;
                 Auth.exp := 604800 |})
    as (Htoken & H401 & _);
    [vm_compute; reflexivity|vm_compute; reflexivity|].
  split; assumption.
Defined.

(** ** From login to a guarded mutation *)






(** ** The rate limiter *)

Lemma checkRateLimit_other_key identifier config now
    (store : gmap string RateLimit.RateLimitEntry) (k : string) :
  k <> RateLimit.key_of identifier config ->
  snd (RateLimit.checkRateLimit identifier config now store) !! k = store !! k.
Proof.
  intros Hk.
  destruct (checkRateLimit_cases identifier config now store)
    as [(_ & _ & _ & Hs)|[(e & _ & _ & _ & _ & _ & _ & Hs)|(e & _ & _ & _ & _ & _ & Hs)]];
    cbv zeta in Hs; rewrite Hs; [|reflexivity|]; now apply lookup_insert_ne.
Qed.

(** X13. A call of [checkRateLimit] reads and writes the entry of its own
    key only: the entry under every other key is what it was. *)
Theorem checkRateLimit_frame identifier config now
    (store : gmap string RateLimit.RateLimitEntry) (k : string) :
  k <> RateLimit.key_of identifier config ->
  snd (RateLimit.checkRateLimit identifier config now store) !! k = store !! k.
Proof. apply checkRateLimit_other_key. Qed.

Lemma checkRateLimit_frame_witness :
  snd (RateLimit.checkRateLimit Reference.client RateLimit.otpRateLimit 6000
         Reference.exhausted) !! "login:203.0.113.9"
  = Some {| RateLimit.count := 5; RateLimit.resetTime := 900000 |}.
Proof.
  rewrite (checkRateLimit_frame Reference.client RateLimit.otpRateLimit 6000
             Reference.exhausted "login:203.0.113.9");
    [vm_compute; reflexivity|vm_compute; discriminate].
Defined.

Lemma successes_in_window identifier config : forall times store e,
  store !! RateLimit.key_of identifier config = Some e ->
  Forall (fun t => t <= RateLimit.resetTime e)%Z times ->
  List.length (List.filter RateLimit.success
                 (fst (checkRateLimit_at identifier config times store)))
  = Nat.min (List.length times)
            (Z.to_nat (RateLimit.maxRequests config - RateLimit.count e)).
Proof.
  induction times as [|t times IH]; intros store e He Hin; [reflexivity|].
  inversion Hin as [|? ? Ht Hrest]; subst.
  cbn [checkRateLimit_at].
  destruct (Z.le_gt_cases (RateLimit.maxRequests config) (RateLimit.count e)) as [Hfull|Hroom].
  - rewrite (checkRateLimit_denied _ _ _ _ e He Ht Hfull).
    specialize (IH store e He Hrest).
    destruct (checkRateLimit_at identifier config times store) as [rs store2].
    cbn [fst List.filter RateLimit.success List.length] in *. rewrite IH. lia.
  - rewrite (checkRateLimit_counted _ _ _ _ e He Ht Hroom).
    match goal with
    | |- context [checkRateLimit_at _ _ _ (<[?k := ?e']> store)] =>
        specialize (IH (<[k := e']> store) e' (lookup_insert_eq _ _ _) Hrest)
    end.
    cbn [RateLimit.count RateLimit.resetTime] in IH.
    destruct (checkRateLimit_at identifier config times _) as [rs store2].
    cbn [fst List.filter RateLimit.success List.length] in *. rewrite IH. lia.
Qed.

(** X14. Calls for one key within one window: from a store where the key is
    absent or expired at the first call, and with every later call made no
    later than the reset time set by the first, the number of calls that
    succeed is the number of calls or [max 1 maxRequests], whichever is
    smaller. *)
Theorem successes_per_window identifier config
    (store : gmap string RateLimit.RateLimitEntry) (t1 : Z) (times : list Z) :
  (store !! RateLimit.key_of identifier config = None
   \/ exists e, store !! RateLimit.key_of identifier config = Some e
                /\ (t1 > RateLimit.resetTime e)%Z) ->
  Forall (fun t => t <= t1 + RateLimit.windowSeconds config * 1000)%Z times ->
  List.length (List.filter RateLimit.success
                 (fst (checkRateLimit_at identifier config (t1 :: times) store)))
  = Nat.min (S (List.length times)) (Z.to_nat (Z.max 1 (RateLimit.maxRequests config))).
Proof.
  intros Hstart Hin. cbn [checkRateLimit_at].
  rewrite (checkRateLimit_fresh _ _ _ _ Hstart).
  match goal with
  | |- context [checkRateLimit_at _ _ _ (<[?k := ?e']> store)] =>
      pose proof (successes_in_window identifier config times (<[k := e']> store) e'
                    (lookup_insert_eq _ _ _) Hin) as Hrest
  end.
  cbn [RateLimit.count RateLimit.resetTime] in Hrest.
  destruct (checkRateLimit_at identifier config times _) as [rs store2].
  cbn [fst List.filter RateLimit.success List.length] in *. rewrite Hrest. lia.
Qed.

Lemma successes_per_window_witness :
  List.length (List.filter RateLimit.success
                 (fst (checkRateLimit_at Reference.client RateLimit.loginRateLimit
                         [0; 1; 2; 3; 4; 5; 6; 900000]%Z ∅))) = 5%nat.
Proof.
  rewrite (successes_per_window Reference.client RateLimit.loginRateLimit ∅ 0
             [1; 2; 3; 4; 5; 6; 900000]%Z).
  - reflexivity.
  - left. apply lookup_empty.
  - repeat constructor; cbn; lia.
Defined.

Lemma key_of_split identifier config p :
  RateLimit.prefix config = Some p -> lacks ":" p = true ->
  Js.split ":" (RateLimit.key_of identifier config) = p :: Js.split ":" identifier.
Proof.
  intros Hp Hlacks. unfold RateLimit.key_of. rewrite Hp.
  rewrite append_String, append_nil. now apply split_app.
Qed.

(** X15. The five configured limiters have key spaces of their own: keys of
    two different limiters never coincide, whatever the identifiers, so a
    call for one limiter leaves every entry of the others as it was. *)
Theorem limiters_independent config1 config2 identifier1 identifier2 now
    (store : gmap string RateLimit.RateLimitEntry) :
  In config1 RateLimit.limiters -> In config2 RateLimit.limiters ->
  config1 <> config2 ->
  RateLimit.key_of identifier1 config1 <> RateLimit.key_of identifier2 config2
  /\ snd (RateLimit.checkRateLimit identifier1 config1 now store)
       !! RateLimit.key_of identifier2 config2
     = store !! RateLimit.key_of identifier2 config2.
Proof.
  intros H1 H2 Hne.
  assert (Hkeys : RateLimit.key_of identifier1 config1 <> RateLimit.key_of identifier2 config2).
  { intros Heq. apply (f_equal (Js.split ":")) in Heq.
    cbn [RateLimit.limiters In] in H1, H2.
    repeat (destruct H1 as [H1|H1]; [subst config1|]); try contradiction;
      repeat (destruct H2 as [H2|H2]; [subst config2|]); try contradiction;
      try (now elim Hne);
      erewrite !key_of_split in Heq by (reflexivity || (vm_compute; reflexivity));
      discriminate Heq. }
  split; [exact Hkeys|]. apply checkRateLimit_other_key. congruence.
Qed.

Lemma limiters_independent_witness :
  RateLimit.key_of "a" RateLimit.loginRateLimit <> RateLimit.key_of "b" RateLimit.otpRateLimit
  /\ snd (RateLimit.checkRateLimit "a" RateLimit.loginRateLimit 0 Reference.exhausted)
       !! RateLimit.key_of "b" RateLimit.otpRateLimit
     = Reference.exhausted !! RateLimit.key_of "b" RateLimit.otpRateLimit.
Proof.
  apply (limiters_independent RateLimit.loginRateLimit RateLimit.otpRateLimit "a" "b" 0
           Reference.exhausted).
  - cbn. tauto.
  - cbn. tauto.
  - discriminate.
Defined.

Lemma cleanup_lookup now (store : gmap string RateLimit.RateLimitEntry) k :
  RateLimit.cleanup now store !! k
  = match store !! k with
    | Some e => if (now >? RateLimit.resetTime e)%Z then None else Some e
    | None => None
    end.
Proof.
  unfold RateLimit.cleanup.
  destruct (store !! k) as [e|] eqn:Hk.
  - destruct (Z.gtb_spec now (RateLimit.resetTime e)) as [Hexp|Hin].
    + apply map_lookup_filter_None. right. intros e' He'. cbn. 
      assert (e' = e) by congruence. subst. lia.
    + apply map_lookup_filter_Some. split; [exact Hk|cbn; lia].
  - apply map_lookup_filter_None. left. exact Hk.
Qed.

(** X16. The periodic sweep is invisible to later calls: when the sweep ran
    no later than the call, [checkRateLimit] returns the same result and
    stores the same entry under its key as it would have without the sweep;
    and the sweep removes the expired entries and no other. *)
Theorem cleanup_transparent identifier config now swept
    (store : gmap string RateLimit.RateLimitEntry) :
  (swept <= now)%Z ->
  fst (RateLimit.checkRateLimit identifier config now (RateLimit.cleanup swept store))
  = fst (RateLimit.checkRateLimit identifier config now store)
  /\ snd (RateLimit.checkRateLimit identifier config now (RateLimit.cleanup swept store))
       !! RateLimit.key_of identifier config
     = snd (RateLimit.checkRateLimit identifier config now store)
         !! RateLimit.key_of identifier config
  /\ (forall k, RateLimit.cleanup swept store !! k
                = match store !! k with
                  | Some e => if (swept >? RateLimit.resetTime e)%Z then None else Some e
                  | None => None
                  end).
Proof.
  intros Hclock. split; [|split]; [| |intros k; apply cleanup_lookup].
  - unfold RateLimit.checkRateLimit. cbv zeta. rewrite cleanup_lookup.
    destruct (store !! RateLimit.key_of identifier config) as [e|]; [|reflexivity].
    destruct (Z.gtb_spec swept (RateLimit.resetTime e)).
    + destruct (Z.gtb_spec now (RateLimit.resetTime e)); [reflexivity|lia].
    + destruct (now >? RateLimit.resetTime e)%Z; [reflexivity|].
      destruct (RateLimit.count e >=? RateLimit.maxRequests config)%Z; reflexivity.
  - unfold RateLimit.checkRateLimit. cbv zeta. rewrite cleanup_lookup.
    destruct (store !! RateLimit.key_of identifier config) as [e|] eqn:He;
      [|cbn [snd]; now rewrite !lookup_insert_eq].
    destruct (Z.gtb_spec swept (RateLimit.resetTime e)) as [Hgone|Hkept].
    + destruct (Z.gtb_spec now (RateLimit.resetTime e)); [|lia].
      cbn [snd]. now rewrite !lookup_insert_eq.
    + destruct (now >? RateLimit.resetTime e)%Z; [cbn [snd]; now rewrite !lookup_insert_eq|].
      destruct (RateLimit.count e >=? RateLimit.maxRequests config)%Z; cbn [snd].
      * rewrite cleanup_lookup, He.
        destruct (Z.gtb_spec swept (RateLimit.resetTime e)); [lia|reflexivity].
      * now rewrite !lookup_insert_eq.
Qed.

Lemma cleanup_transparent_witness :
  fst (RateLimit.checkRateLimit Reference.client RateLimit.loginRateLimit 900002
         (RateLimit.cleanup 900001 Reference.exhausted))
  = fst (RateLimit.checkRateLimit Reference.client RateLimit.loginRateLimit 900002
           Reference.exhausted).
Proof.
  apply (cleanup_transparent Reference.client RateLimit.loginRateLimit 900002 900001
           Reference.exhausted).
  lia.
Defined.

Lemma ceil_div_ge a : (a <= Js.ceil_div a 1000 * 1000)%Z.
Proof. unfold Js.ceil_div. lia. Qed.

Lemma ceil_div_nonneg a : (0 <= a)%Z -> (0 <= Js.ceil_div a 1000)%Z.
Proof. unfold Js.ceil_div. lia. Qed.

(** X17. The wait a denial announces is honoured: [resetIn] of a denial is
    not negative, and the next call for the key, made more than [resetIn]
    seconds after the denied one, succeeds with [maxRequests - 1] remaining. *)
Theorem retry_after_honoured identifier config now later
    (store : gmap string RateLimit.RateLimitEntry) :
  let denied := RateLimit.checkRateLimit identifier config now store in
  RateLimit.success (fst denied) = false ->
  (later > now + RateLimit.resetIn (fst denied) * 1000)%Z ->
  (0 <= RateLimit.resetIn (fst denied))%Z
  /\ RateLimit.success (fst (RateLimit.checkRateLimit identifier config later (snd denied)))
     = true
  /\ RateLimit.remaining (fst (RateLimit.checkRateLimit identifier config later (snd denied)))
     = (RateLimit.maxRequests config - 1)%Z.
Proof.
  cbv zeta.
  destruct (checkRateLimit_cases identifier config now store)
    as [(_ & Hs & _)|[(e & He & Hin & _ & _ & _ & Hreset & Hstore)|(e & _ & _ & _ & Hs & _)]];
    cbv zeta in *; try congruence.
  intros _ Hlater. rewrite Hreset in *. rewrite Hstore.
  pose proof (ceil_div_ge (RateLimit.resetTime e - now)).
  split; [apply ceil_div_nonneg; lia|].
  rewrite checkRateLimit_fresh; [split; reflexivity|].
  right. exists e. split; [exact He|lia].
Qed.

Lemma retry_after_honoured_witness :
  RateLimit.resetIn
    (fst (RateLimit.checkRateLimit Reference.client RateLimit.loginRateLimit 6000
            Reference.exhausted)) = 894%Z
  /\ RateLimit.success
       (fst (RateLimit.checkRateLimit Reference.client RateLimit.loginRateLimit 900001
               (snd (RateLimit.checkRateLimit Reference.client RateLimit.loginRateLimit 6000
                       Reference.exhausted)))) = true.
Proof.
  split; [vm_compute; reflexivity|].
  apply (retry_after_honoured Reference.client RateLimit.loginRateLimit 6000 900001
           Reference.exhausted).
  - vm_compute. reflexivity.
  - vm_compute. reflexivity.
Defined.

Lemma run_counts_positive evs : forall (store : gmap string RateLimit.RateLimitEntry),
  (forall k e, store !! k = Some e -> (1 <= RateLimit.count e)%Z) ->
  forall k e, fold_left RateLimit.step evs store !! k = Some e -> (1 <= RateLimit.count e)%Z.
Proof.
  induction evs as [|ev evs IH]; intros store Hinv; [exact Hinv|].
  cbn [fold_left]. apply IH. intros k e.
  destruct ev as [identifier config now|now]; cbn [RateLimit.step].
  - destruct (checkRateLimit_cases identifier config now store)
      as [(_ & _ & _ & ->)|[(e0 & _ & _ & _ & _ & _ & _ & ->)|(e0 & He0 & _ & _ & _ & _ & ->)]];
      cbv zeta in *; [|apply Hinv|]; rewrite lookup_insert; case_decide;
      try apply Hinv; intros [= <-]; cbn; [lia|].
    specialize (Hinv _ _ He0). lia.
  - rewrite cleanup_lookup. destruct (store !! k) as [e'|] eqn:Hk; [|discriminate].
    destruct (now >? _)%Z; [discriminate|]. intros [= <-]. now apply (Hinv k).
Qed.

(** X18. What a result reports, on a store reached from the empty one by
    calls and sweeps: [limit] is the configured [maxRequests]; a call on an
    absent or expired key always succeeds, also when [maxRequests] is zero
    or negative; and with [maxRequests] at least 1 the reported [remaining]
    is never negative and always below the limit. *)
Theorem result_bounds (evs : list RateLimit.event) identifier config now :
  let store := RateLimit.run evs in
  let r := fst (RateLimit.checkRateLimit identifier config now store) in
  RateLimit.limit r = RateLimit.maxRequests config
  /\ ((store !! RateLimit.key_of identifier config = None
       \/ exists e, store !! RateLimit.key_of identifier config = Some e
                    /\ (now > RateLimit.resetTime e)%Z) ->
      RateLimit.success r = true)
  /\ ((1 <= RateLimit.maxRequests config)%Z ->
      (0 <= RateLimit.remaining r < RateLimit.maxRequests config)%Z).
Proof.
  cbv zeta. split; [|split].
  - unfold RateLimit.checkRateLimit. cbv zeta.
    destruct (RateLimit.run evs !! _) as [e|]; [|reflexivity].
    destruct (now >? _)%Z; [reflexivity|].
    destruct (_ >=? _)%Z; reflexivity.
  - intros Hstart. now rewrite (checkRateLimit_fresh _ _ _ _ Hstart).
  - intros Hmax.
    destruct (checkRateLimit_cases identifier config now (RateLimit.run evs))
      as [(_ & _ & -> & _)|[(e & _ & _ & _ & _ & -> & _)|(e & He & _ & Hroom & _ & -> & _)]];
      try lia.
    assert (1 <= RateLimit.count e)%Z; [|lia].
    apply (run_counts_positive evs ∅) with (k := RateLimit.key_of identifier config);
      [|exact He].
    intros k e'. rewrite lookup_empty. discriminate.
Qed.

Lemma result_bounds_witness :
  RateLimit.success
    (fst (RateLimit.checkRateLimit "a"
            {| RateLimit.maxRequests := 0; RateLimit.windowSeconds := 60;
               RateLimit.prefix := None |} 0 (RateLimit.run []))) = true
  /\ (0 <= RateLimit.remaining
             (fst (RateLimit.checkRateLimit Reference.client RateLimit.loginRateLimit 7000
                     (RateLimit.run Reference.login_attempts))) < 5)%Z.
Proof.
  split.
  - apply (result_bounds [] "a"
             {| RateLimit.maxRequests := 0; RateLimit.windowSeconds := 60;
                RateLimit.prefix := None |} 0).
    left. apply lookup_empty.
  - apply (result_bounds Reference.login_attempts Reference.client RateLimit.loginRateLimit
             7000).
    vm_compute. discriminate.
Defined.

(** ** The client address and the send-otp route *)

Lemma trimStart_keeps P : forall n s,
  (String.length s <= n)%nat -> all_chars P s = true -> all_chars P (Js.trimStart s) = true.
Proof.
  induction n as [|n IH]; intros s Hlen Hall.
  - destruct s; [exact Hall|cbn in Hlen; lia].
  - destruct s as [|c1 r1]; [exact Hall|].
    cbn [String.length] in Hlen. cbn [all_chars] in Hall.
    apply andb_true_iff in Hall as [H1 Hr1].
    change (Js.trimStart (String c1 r1))
      with (if Js.is_ascii_ws c1 then Js.trimStart r1
            else match r1 with
                 | String c2 r2 =>
                     if Js.is_ws2 c1 c2 then Js.trimStart r2
                     else match r2 with
                          | String c3 r3 =>
                              if Js.is_ws3 c1 c2 c3 then Js.trimStart r3 else String c1 r1
                          | EmptyString => String c1 r1
                          end
                 | EmptyString => String c1 r1
                 end).
    assert (Hs : all_chars P (String c1 r1) = true) by (cbn; now rewrite H1, Hr1).
    destruct (Js.is_ascii_ws c1); [apply IH; [lia|exact Hr1]|].
    destruct r1 as [|c2 r2]; [exact Hs|].
    cbn [String.length] in Hlen. cbn [all_chars] in Hr1.
    apply andb_true_iff in Hr1 as [H2 Hr2].
    destruct (Js.is_ws2 c1 c2); [apply IH; [lia|exact Hr2]|].
    destruct r2 as [|c3 r3]; [exact Hs|].
    cbn [String.length] in Hlen. cbn [all_chars] in Hr2.
    apply andb_true_iff in Hr2 as [H3 Hr3].
    destruct (Js.is_ws3 c1 c2 c3); [apply IH; [lia|exact Hr3]|exact Hs].
Qed.

Lemma trimStart_rev_keeps P : forall n s,
  (String.length s <= n)%nat -> all_chars P s = true ->
  all_chars P (Js.trimStart_rev s) = true.
Proof.
  induction n as [|n IH]; intros s Hlen Hall.
  - destruct s; [exact Hall|cbn in Hlen; lia].
  - destruct s as [|c1 r1]; [exact Hall|].
    cbn [String.length] in Hlen. cbn [all_chars] in Hall.
    apply andb_true_iff in Hall as [H1 Hr1].
    change (Js.trimStart_rev (String c1 r1))
      with (if Js.is_ascii_ws c1 then Js.trimStart_rev r1
            else match r1 with
                 | String c2 r2 =>
                     if Js.is_ws2 c2 c1 then Js.trimStart_rev r2
                     else match r2 with
                          | String c3 r3 =>
                              if Js.is_ws3 c3 c2 c1 then Js.trimStart_rev r3
                              else String c1 r1
                          | EmptyString => String c1 r1
                          end
                 | EmptyString => String c1 r1
                 end).
    assert (Hs : all_chars P (String c1 r1) = true) by (cbn; now rewrite H1, Hr1).
    destruct (Js.is_ascii_ws c1); [apply IH; [lia|exact Hr1]|].
    destruct r1 as [|c2 r2]; [exact Hs|].
    cbn [String.length] in Hlen. cbn [all_chars] in Hr1.
    apply andb_true_iff in Hr1 as [H2 Hr2].
    destruct (Js.is_ws2 c2 c1); [apply IH; [lia|exact Hr2]|].
    destruct r2 as [|c3 r3]; [exact Hs|].
    cbn [String.length] in Hlen. cbn [all_chars] in Hr2.
    apply andb_true_iff in Hr2 as [H3 Hr3].
    destruct (Js.is_ws3 c3 c2 c1); [apply IH; [lia|exact Hr3]|exact Hs].
Qed.

Lemma rev_onto_keeps P s : forall acc,
  all_chars P s = true -> all_chars P acc = true -> all_chars P (Js.rev_onto s acc) = true.
Proof.
  induction s as [|c r IH]; intros acc Hs Hacc; [exact Hacc|].
  cbn [all_chars] in Hs. apply andb_true_iff in Hs as [Hc Hr].
  cbn [Js.rev_onto]. apply IH; [exact Hr|]. cbn. now rewrite Hc, Hacc.
Qed.

Lemma trim_keeps P s : all_chars P s = true -> all_chars P (Js.trim s) = true.
Proof.
  intros Hs. unfold Js.trim, Js.trimEnd, Js.reverse.
  apply rev_onto_keeps; [|reflexivity].
  apply (trimStart_rev_keeps P _ _ (Nat.le_refl _)).
  apply rev_onto_keeps; [|reflexivity].
  now apply (trimStart_keeps P _ _ (Nat.le_refl _)).
Qed.

Lemma split_parts_lack sep s : Forall (fun f => lacks sep f = true) (Js.split sep s).
Proof.
  induction s as [|c r IH]; cbn [Js.split]; [repeat constructor|].
  destruct (Ascii.eqb_spec c sep) as [->|Hc]; [constructor; [reflexivity|exact IH]|].
  destruct (Js.split sep r) as [|f fs]; [repeat constructor; cbn|].
  - destruct (Ascii.eqb_spec c sep); [contradiction|reflexivity].
  - inversion IH; subst. constructor; [|assumption].
    unfold lacks in *. cbn. destruct (Ascii.eqb_spec c sep); [contradiction|assumption].
Qed.

(** X19. [getClientIp]: with no usable header the identifier is
    ["unknown"]; a non-empty [X-Forwarded-For] wins over [X-Real-IP] and
    gives its first comma-separated entry, trimmed, which never holds a
    comma; [X-Real-IP] is used as it stands when [X-Forwarded-For] is absent
    or empty. *)
Theorem getClientIp_sources (request : Request) :
  (Js.truthy (headers_get request "x-forwarded-for") = false ->
   Js.truthy (headers_get request "x-real-ip") = false ->
   RateLimit.getClientIp request = "unknown")
  /\ (forall ip rest,
        headers_get request "x-forwarded-for" = Some (ip +:+ rest) ->
        ip +:+ rest <> "" -> lacks "," ip = true ->
        (rest = "" \/ exists more, rest = String "," more) ->
        RateLimit.getClientIp request = Js.trim ip)
  /\ (Js.truthy (headers_get request "x-forwarded-for") = true ->
      lacks "," (RateLimit.getClientIp request) = true)
  /\ (forall ip,
        Js.truthy (headers_get request "x-forwarded-for") = false ->
        headers_get request "x-real-ip" = Some ip -> ip <> "" ->
        RateLimit.getClientIp request = ip).
Proof.
  unfold RateLimit.getClientIp. cbv zeta. repeat apply conj.
  - intros -> ->. reflexivity.
  - intros ip rest Hh Hne Hip Hrest. rewrite Hh, (truthy_nonempty _ Hne).
    cbn [Js.ToString]. destruct Hrest as [->|[more ->]].
    + replace (ip +:+ "") with ip by (clear; induction ip as [|c r IH];
        [reflexivity|rewrite append_String; now f_equal]).
      now rewrite split_lacks.
    + now rewrite split_app.
  - intros ->. apply trim_keeps.
    pose proof (split_parts_lack "," (Js.ToString (headers_get request "x-forwarded-for")))
      as Hparts.
    destruct (Js.split "," _) as [|f fs]; [reflexivity|].
    inversion Hparts; subst. assumption.
  - intros ip -> Hh Hne. rewrite Hh, (truthy_nonempty _ Hne). reflexivity.
Qed.

Lemma getClientIp_sources_witness :
  RateLimit.getClientIp
    {| method := "POST"; pathname := "/api/auth/login"; cookies := ∅;
       headers := <["x-real-ip" := "10.0.0.9"]>
                    {["x-forwarded-for" := " 203.0.113.9 , 10.0.0.1"]} |}
  = "203.0.113.9".
Proof.
  set (request := {| method := "POST"; pathname := "/api/auth/login"; cookies := ∅;
       headers := <["x-real-ip" := "10.0.0.9"]>
                    {["x-forwarded-for" := " 203.0.113.9 , 10.0.0.1"]} |}).
  rewrite (proj1 (proj2 (getClientIp_sources request)) " 203.0.113.9 " ", 10.0.0.1").
  - vm_compute. reflexivity.
  - vm_compute. reflexivity.
  - discriminate.
  - vm_compute. reflexivity.
  - right. eexists. reflexivity.
Defined.

(** X20. [POST /api/auth/send-otp] consults the registration limiter first
    and the OTP limiter second. A denial by the registration limiter leaves
    the store as it was. A denial by the OTP limiter comes after the
    registration limiter has counted the request: the entry of the
    registration key has changed although the request is rejected. *)
Theorem send_otp_accounting (request : Request) (now1 now2 : Z)
    (store : gmap string RateLimit.RateLimitEntry) :
  let clientIp := RateLimit.getClientIp request in
  let reg := RateLimit.checkRateLimit clientIp RateLimit.registerRateLimit now1 store in
  let otp := RateLimit.checkRateLimit clientIp RateLimit.otpRateLimit now2 (snd reg) in
  (RateLimit.success (fst reg) = false ->
   SendOtp.rateLimit request now1 now2 store = (Some (fst reg), store))
  /\ (RateLimit.success (fst reg) = true -> RateLimit.success (fst otp) = false ->
      SendOtp.rateLimit request now1 now2 store = (Some (fst otp), snd reg)
      /\ snd reg !! RateLimit.key_of clientIp RateLimit.registerRateLimit
         <> store !! RateLimit.key_of clientIp RateLimit.registerRateLimit)
  /\ (RateLimit.success (fst reg) = true -> RateLimit.success (fst otp) = true ->
      SendOtp.rateLimit request now1 now2 store = (None, snd otp)).
Proof.
  cbv zeta. unfold SendOtp.rateLimit. cbv zeta.
  set (ip := RateLimit.getClientIp request).
  pose proof (checkRateLimit_cases ip RateLimit.registerRateLimit now1 store) as Hreg.
  cbv zeta in Hreg.
  destruct (RateLimit.checkRateLimit ip RateLimit.registerRateLimit now1 store)
    as [r store1] eqn:Ereg.
  cbn [fst snd] in *.
  pose proof (checkRateLimit_cases ip RateLimit.otpRateLimit now2 store1) as Hotp.
  cbv zeta in Hotp.
  destruct (RateLimit.checkRateLimit ip RateLimit.otpRateLimit now2 store1)
    as [o store2] eqn:Eotp.
  cbn [fst snd] in *.
  repeat apply conj.
  - intros Hr. rewrite Hr. cbn [negb]. f_equal.
    destruct Hreg as [(_ & Hs & _)|[(e & _ & _ & _ & _ & _ & _ & Hst)|(e & _ & _ & _ & Hs & _)]];
      congruence.
  - intros Hr Ho. rewrite Hr, Ho. cbn [negb]. split.
    + f_equal.
      destruct Hotp as [(_ & Hs & _)|[(e & _ & _ & _ & _ & _ & _ & Hst)|(e & _ & _ & _ & Hs & _)]];
        congruence.
    + destruct Hreg as [(Hstart & _ & _ & ->)|[(e & _ & _ & _ & Hs & _)|(e & He & _ & _ & _ & _ & ->)]];
        [|congruence|]; rewrite lookup_insert_eq.
      * destruct Hstart as [->|(e & -> & Hexp)]; [discriminate|].
        intros [= Heq]. rewrite <- Heq in Hexp. cbn in Hexp. lia.
      * rewrite He. intros [= Heq]. apply (f_equal RateLimit.count) in Heq. cbn in Heq. lia.
  - intros Hr Ho. rewrite Hr, Ho. reflexivity.
Qed.

Lemma send_otp_accounting_witness :
  let request :=
    {| method := "POST"; pathname := "/api/auth/send-otp"; cookies := ∅;
       headers := {["x-forwarded-for" := "203.0.113.9"]} |} in
  let store : gmap string RateLimit.RateLimitEntry :=
    {[ "otp:203.0.113.9" := {| RateLimit.count := 3; RateLimit.resetTime := 4100000 |} ]} in
  fst (SendOtp.rateLimit request 3700000 3700000 store)
  = Some {| RateLimit.success := false; RateLimit.remaining := 0;
            RateLimit.resetIn := 400; RateLimit.limit := 3 |}
  /\ store !! "register:203.0.113.9" = None
  /\ snd (SendOtp.rateLimit request 3700000 3700000 store) !! "register:203.0.113.9"
     = Some {| RateLimit.count := 1; RateLimit.resetTime := 7300000 |}.
Proof.
  intros request store.
  destruct (proj1 (proj2 (send_otp_accounting request 3700000 3700000 store)))
    as [Hout _]; [vm_compute; reflexivity|vm_compute; reflexivity|].
  rewrite Hout. vm_compute. repeat split; reflexivity.
Defined.

(** ** The API client *)

Lemma take_until_spec stop v post :
  lacks stop v = true -> (post = "" \/ exists more, post = String stop more) ->
  Js.take_until stop (v +:+ post) = v.
Proof.
  unfold lacks. intros Hv Hpost. induction v as [|c v IH].
  - rewrite append_nil. destruct Hpost as [->|[more ->]]; [reflexivity|].
    cbn. now rewrite Ascii.eqb_refl.
  - cbn [all_chars] in Hv. apply andb_true_iff in Hv as [Hc Hv].
    rewrite append_String. cbn [Js.take_until].
    apply negb_true_iff in Hc. rewrite Hc. f_equal. auto.
Qed.

Lemma take_until_lacks stop s : lacks stop (Js.take_until stop s) = true.
Proof.
  unfold lacks. induction s as [|c r IH]; [reflexivity|]. cbn [Js.take_until].
  destruct (Ascii.eqb c stop) eqn:Hc; [reflexivity|]. cbn. now rewrite Hc, IH.
Qed.

Lemma match_here_value s v : ApiClient.match_here s = Some v -> v <> "" /\ lacks ";" v = true.
Proof.
  unfold ApiClient.match_here. destruct (String.prefix "csrf_token=" s); [|discriminate].
  cbv zeta. destruct (String.eqb_spec (Js.take_until ";" (Js.drop 11 s)) "") as [|Hne];
    [discriminate|].
  intros [= <-]. split; [exact Hne|apply take_until_lacks].
Qed.

Lemma match_csrf_value s : forall v,
  ApiClient.match_csrf s = Some v -> v <> "" /\ lacks ";" v = true.
Proof.
  induction s as [|c r IH]; intros v; cbn [ApiClient.match_csrf].
  - destruct (ApiClient.match_here "") eqn:Hm; [|discriminate].
    intros [= <-]. eapply match_here_value; eassumption.
  - destruct (ApiClient.match_here (String c r)) eqn:Hm.
    + intros [= <-]. eapply match_here_value; eassumption.
    + apply IH.
Qed.

Lemma match_csrf_value_doc document_cookie v :
  ApiClient.getCsrfToken document_cookie = Some v -> v <> "" /\ lacks ";" v = true.
Proof. destruct document_cookie as [cookie|]; [apply match_csrf_value|discriminate]. Qed.

Lemma match_csrf_skips pre rest :
  matches_within pre rest = false ->
  ApiClient.match_csrf (pre +:+ rest) = ApiClient.match_csrf rest.
Proof.
  induction pre as [|c pre IH]; [reflexivity|]. cbn [matches_within].
  destruct (ApiClient.match_here (String c pre +:+ rest)) eqn:Hm; [discriminate|].
  intros Hrest. rewrite append_String in *. cbn [ApiClient.match_csrf].
  rewrite Hm. auto.
Qed.

Lemma match_here_cookie v post :
  v <> "" -> lacks ";" v = true -> (post = "" \/ exists more, post = String ";" more) ->
  ApiClient.match_here ("csrf_token=" +:+ v +:+ post) = Some v.
Proof.
  intros Hne Hv Hpost. unfold ApiClient.match_here.
  pose proof (startsWith_app "csrf_token=" (v +:+ post)) as Hpre.
  unfold Js.startsWith in Hpre. rewrite Hpre. cbv zeta.
  change (Js.drop 11 ("csrf_token=" +:+ v +:+ post)) with (v +:+ post).
  rewrite take_until_spec by assumption.
  destruct (String.eqb_spec v ""); [contradiction|reflexivity].
Qed.

(** X21. [getCsrfToken] returns the value that follows the first
    occurrence of [csrf_token=] that has a value: the text up to the next
    semicolon. What it returns is never empty and holds no semicolon. The
    occurrence need not start a cookie: it may end a longer cookie name. *)
Theorem getCsrfToken_reads_cookie (pre value post : string) :
  (forall document_cookie v,
      ApiClient.getCsrfToken document_cookie = Some v -> v <> "" /\ lacks ";" v = true)
  /\ (value <> "" -> lacks ";" value = true ->
      (post = "" \/ exists more, post = String ";" more) ->
      matches_within pre ("csrf_token=" +:+ value +:+ post) = false ->
      ApiClient.getCsrfToken (Some (pre +:+ "csrf_token=" +:+ value +:+ post)) = Some value).
Proof.
  split.
  - apply match_csrf_value_doc.
  - intros Hne Hv Hpost Hpre. cbn [ApiClient.getCsrfToken].
    rewrite (match_csrf_skips _ _ Hpre).
    pose proof (match_here_cookie value post Hne Hv Hpost) as Hm.
    destruct ("csrf_token=" +:+ value +:+ post) eqn:Htext;
      cbn [ApiClient.match_csrf]; now rewrite Hm.
Qed.

Lemma getCsrfToken_reads_cookie_witness :
  ApiClient.getCsrfToken (Some "theme=dark; csrf_token=NzowOmFi; lang=en") = Some "NzowOmFi"
  /\ ApiClient.getCsrfToken (Some "xcsrf_token=other; csrf_token=NzowOmFi") = Some "other".
Proof.
  split.
  - apply (proj2 (getCsrfToken_reads_cookie "theme=dark; " "NzowOmFi" "; lang=en"));
      [discriminate|reflexivity|right; eexists; reflexivity|vm_compute; reflexivity].
  - apply (proj2 (getCsrfToken_reads_cookie "x" "other" "; csrf_token=NzowOmFi"));
      [discriminate|reflexivity|right; eexists; reflexivity|vm_compute; reflexivity].
Defined.



(** ** Validation messages *)

(** X23. The message of a failed validation: "Validation failed" when the
    parser reports no issue; the message of the first issue, its leading
    white space dropped, when that issue has no path; and the path joined by
    dots, a colon, a space and the message when the path text is not empty
    and does not begin with a colon. All issues are handed on as details. *)
Theorem validation_message {D T : Type} (schema : D -> Validations.SafeParse T) (data : D) :
  (schema data = Validations.ParseError [] ->
   Validations.validateWithSchema schema data = Validations.Invalid "Validation failed" [])
  /\ (forall msg rest,
        schema data
        = Validations.ParseError
            ({| Validations.path := []; Validations.message := msg |} :: rest) ->
        Validations.validateWithSchema schema data
        = Validations.Invalid (Js.trimStart msg)
            ({| Validations.path := []; Validations.message := msg |} :: rest))
  /\ (forall p msg rest,
        schema data
        = Validations.ParseError
            ({| Validations.path := p; Validations.message := msg |} :: rest) ->
        Validations.join_path p <> "" ->
        Js.startsWith (Validations.join_path p) ":" = false ->
        Validations.validateWithSchema schema data
        = Validations.Invalid (Validations.join_path p +:+ ": " +:+ msg)
            ({| Validations.path := p; Validations.message := msg |} :: rest)).
Proof.
  unfold Validations.validateWithSchema. repeat apply conj.
  - intros ->. reflexivity.
  - intros msg rest ->. reflexivity.
  - intros p msg rest -> Hne Hcolon. cbv zeta. cbn [Validations.path Validations.message].
    f_equal. destruct (Validations.join_path p) as [|c r]; [contradiction|].
    rewrite append_String. cbn [Validations.strip_colon].
    unfold Js.startsWith in Hcolon. cbn [String.prefix] in Hcolon.
    destruct (Ascii.eqb_spec c ":") as [->|]; [|reflexivity].
    destruct (ascii_dec ":" ":"); [destruct r; discriminate|contradiction].
Qed.

Lemma validation_message_witness :
  Validations.validateWithSchema
    (fun _ : string =>
       Validations.ParseError (T := string)
         [ {| Validations.path := [Validations.Key "user"; Validations.Index 0];
              Validations.message := "Required" |} ])
    "{}"
  = Validations.Invalid "user.0: Required"
      [ {| Validations.path := [Validations.Key "user"; Validations.Index 0];
           Validations.message := "Required" |} ].
Proof.
  apply (proj2 (proj2 (validation_message
                         (fun _ : string =>
                            Validations.ParseError (T := string)
                              [ {| Validations.path := [Validations.Key "user"; Validations.Index 0];
                                   Validations.message := "Required" |} ])
                         "{}"))
           [Validations.Key "user"; Validations.Index 0] "Required" []).
  - reflexivity.
  - discriminate.
  - reflexivity.
Defined.
